(** * GP AI Studio: the image-generation request pipeline

    A shallow embedding of [services/geminiService.ts] (image preprocessor,
    prompt builder, retrying generation client) and of the part of [App.tsx]
    that consumes the client's outcome ([handleFeatureSelect]).

    Conventions.
    - JavaScript strings are [string]s (byte sequences, UTF-8 for the
      Vietnamese messages).  All needles given to [String.prototype.includes]
      in the source are ASCII, for which containment over UTF-8 bytes and over
      UTF-16 code units coincide.
    - Non-negative JavaScript integers (pixel sizes, attempt indices,
      milliseconds) are [N]; the two monetary constants are exact rationals.
    - An [await] is modelled by the settled value of the promise. *)

From Stdlib Require Import Strings.String Strings.Ascii Lists.List Bool.Bool.
From Stdlib Require Import NArith.NArith ZArith.ZArith QArith.QArith QArith.Qround.
From Stdlib Require Import Numbers.DecimalString micromega.Lia.
Import ListNotations.

Local Open Scope string_scope.
Local Open Scope N_scope.

(** ** JavaScript string primitives *)

Module Js.

(** [haystack.includes(needle)]: some suffix of the haystack starts with the
    needle. *)
Fixpoint includes (needle haystack : string) : bool :=
  String.prefix needle haystack ||
  match haystack with
  | EmptyString => false
  | String _ rest => includes needle rest
  end.

(** Truthiness of a string value: only the empty string is falsy. *)
Definition truthy (s : string) : bool :=
  match s with
  | EmptyString => false
  | String _ _ => true
  end.


(** [s.split(c)] for a one-character separator [c]. *)
Fixpoint split (c : ascii) (s : string) : list string :=
  match s with
  | EmptyString => [EmptyString]
  | String a rest =>
      if Ascii.eqb a c then EmptyString :: split c rest
      else match split c rest with
           | piece :: pieces => String a piece :: pieces
           | [] => [String a EmptyString]
           end
  end.

(** [Math.round(p / q)] for non-negative integers [p] and [q > 0]:
    the nearest integer, a tie going up.  In doubles the quotient is rounded
    before [Math.round] sees it; a quotient that is not a tie is at least
    [1 / (2 * q)] away from one, so for the pixel sizes of a browser
    (below 2^32) the rounded quotient lies on the same side and the result
    is the one computed here. *)
Definition roundDiv (p q : N) : N := (2 * p + q) / (2 * q).

(** [Math.round(x)] on an exact rational: [floor (x + 1/2)]. *)
Definition round (x : Q) : Z := Qfloor (x + (1 # 2)).

(** Decimal digits of a natural number. *)
Definition digits (n : N) : string :=
  DecimalString.NilEmpty.string_of_uint (N.to_uint n).

Fixpoint zeros (k : nat) : string :=
  match k with
  | O => EmptyString
  | S k' => String "0" (zeros k')
  end.

(** [x.toFixed(f)] for [0 <= x < 10^21]: the integer [n] nearest to
    [x * 10^f] (the larger one on a tie) is written in decimal, padded with
    zeros on the left to [f + 1] digits, and a point is put before the last
    [f] digits. *)
Definition toFixed (x : Q) (f : nat) : string :=
  let n := Z.to_N (round (x * inject_Z (10 ^ Z.of_nat f))) in
  let m := digits n in
  if Nat.eqb f 0 then m
  else
    let k := String.length m in
    let m := if Nat.leb k f then zeros (f + 1 - k) ++ m else m in
    let k := String.length m in
    String.substring 0 (k - f) m ++ "." ++ String.substring (k - f) f m.

(** Digits grouped by three from the right with the separator [sep];
    [revDigits] is the digit sequence, least significant first, and [k] the
    size of the group being filled. *)
Fixpoint groupDigits (sep : ascii) (k : nat) (revDigits : list ascii) : list ascii :=
  match revDigits with
  | [] => []
  | d :: more =>
      if Nat.eqb k 3 then sep :: d :: groupDigits sep 1 more
      else d :: groupDigits sep (S k) more
  end.

(** [n.toLocaleString('vi-VN')] for an integer [n]: decimal digits with a
    full stop between groups of three. *)
Definition toLocaleString_viVN (n : Z) : string :=
  let body :=
    string_of_list_ascii
      (rev (groupDigits "." 0 (rev (list_ascii_of_string (digits (Z.abs_N n)))))) in
  if (n <? 0)%Z then "-" ++ body else body.

End Js.

(** ** Values exchanged with the environment *)

(** A thrown JavaScript value, as far as the code inspects it: an object
    whose [message] property is a string or absent ([None]), as the SDK's
    errors and the engine's own are. *)
Record JsError := mkJsError {
  name : string;
  message : option string
}.

(** [new Error(msg)] *)
Definition Error (msg : string) : JsError :=
  {| name := "Error"; message := Some msg |}.

(** The [TypeError] raised by reading a property of [undefined] or by
    iterating over it; the message text is the engine's (here: V8's). *)
Definition TypeError (msg : string) : JsError :=
  {| name := "TypeError"; message := Some msg |}.

(** [error.message?.includes(needle)], used as a condition. *)
Definition messageIncludes (error : JsError) (needle : string) : bool :=
  match message error with
  | Some m => Js.includes needle m
  | None => false
  end.

(** A settled promise. *)
Inductive Settled (A : Type) : Type :=
| Resolved (value : A)
| Rejected (reason : JsError).
Arguments Resolved {A} value.
Arguments Rejected {A} reason.

(** The response of [ai.models.generateContent] (package [@google/genai]);
    every property is optional there. *)
Record Blob := mkBlob {
  data : option string;
  mimeType : option string
}.

Record Part := mkPart {
  text : option string;
  inlineData : option Blob
}.

Record Content := mkContent {
  parts : option (list Part)
}.

Record Candidate := mkCandidate {
  content : option Content
}.

Record GenerateContentResponse := mkResponse {
  candidates : option (list Candidate)
}.

(** What one call of the endpoint does: it answers or it throws. *)
Inductive EndpointOutcome :=
| Respond (response : GenerateContentResponse)
| Raise (error : JsError).

(** The request handed to the endpoint. *)
Record GenerateContentRequest := mkRequest {
  model : string;
  requestText : string;
  requestMimeType : string;
  requestData : string
}.

(** Modelled from the spec: the enum [FeatureType] of [./types], whose
    declaration is not part of the sources; the glossary gives it two
    members, and the code names them. *)
Inductive FeatureType := MULTI_ANGLE | SCENE_PLACEMENT.

(** Modelled from the spec: [CostInfo] and [GenerationResult] of [./types];
    the fields are those the code writes. *)
Record CostInfo := mkCostInfo {
  usd : string;
  vnd : string
}.

Record GenerationResult := mkGenerationResult {
  imageUrl : string;
  cost : CostInfo
}.

(** Observable effects of one generation call, in order. *)
Inductive Event :=
| EvCall (attempt : N) (request : GenerateContentRequest)
| EvWait (ms : N).

(** ** The browser, as far as [compressImage] uses it *)

Record DrawImage := mkDrawImage {
  drawnSrc : string;
  dx : N; dy : N; dWidth : N; dHeight : N
}.

Record Canvas := mkCanvas {
  canvasWidth : N;
  canvasHeight : N;
  drawn : option DrawImage
}.

Record Browser := mkBrowser {
  (** [img.src = s]: [Some (img.width, img.height)] when [onload] fires,
      [None] when [onerror] fires. *)
  loadImage : string -> option (N * N);
  (** whether [canvas.getContext('2d')] yields a context for a canvas of the
      given width and height *)
  getContext2d : N -> N -> bool;
  (** [canvas.toDataURL(type, quality)] *)
  toDataURL : Canvas -> string -> Q -> string
}.

(** ** services/geminiService.ts *)

Module GeminiService.

Definition MODEL_NAME : string := "gemini-2.5-flash-image".

(** The two cost constants, as exact rationals.  The source computes with
    IEEE doubles: there [0.002 * 25400] is 50.8 up to 1e-14 and [0.002 * 1e4]
    is 20 up to 1e-14, neither near a rounding tie, so [Math.round] and
    [toFixed(4)] give the digits computed here. *)
Definition ESTIMATED_COST_USD : Q := 2 # 1000.
Definition EXCHANGE_RATE : Q := inject_Z 25400.

(** Default arguments of [compressImage]. *)
Definition DEFAULT_MAX_WIDTH : N := 1024.
Definition DEFAULT_QUALITY : Q := 8 # 10.

(** *** Image preprocessor *)

(** The new [(width, height)] computed in [img.onload]. *)
Definition scaledSize (maxWidth width height : N) : N * N :=
  if height <? width then
    if maxWidth <? width then (maxWidth, Js.roundDiv (height * maxWidth) width)
    else (width, height)
  else
    if maxWidth <? height then (Js.roundDiv (width * maxWidth) height, maxWidth)
    else (width, height).

(** Which of the three [resolve] calls of [compressImage] is reached. *)
Inductive CompressPath :=
| Reencoded (canvas : Canvas)
| OriginalNoContext
| OriginalOnError.

Definition compressPath (browser : Browser) (base64Str : string) (maxWidth : N)
  : CompressPath :=
  match loadImage browser base64Str with
  | Some (imgWidth, imgHeight) =>
      let (width, height) := scaledSize maxWidth imgWidth imgHeight in
      if getContext2d browser width height then
        Reencoded {| canvasWidth := width; canvasHeight := height;
                     drawn := Some (mkDrawImage base64Str 0 0 width height) |}
      else OriginalNoContext
  | None => OriginalOnError
  end.

(** The promise is built from an executor that is only given [resolve]. *)
Definition compressImage (browser : Browser) (base64Str : string)
    (maxWidth : N) (quality : Q) : Settled string :=
  match compressPath browser base64Str maxWidth with
  | Reencoded canvas => Resolved (toDataURL browser canvas "image/jpeg" quality)
  | OriginalNoContext => Resolved base64Str
  | OriginalOnError => Resolved base64Str
  end.

(** Pixel size of the image the resolved string stands for: the canvas that
    was encoded, or the image decoded from the input when the input is handed
    back; [None] when the input does not decode. *)
Definition outputSize (browser : Browser) (base64Str : string) (maxWidth : N)
  : option (N * N) :=
  match compressPath browser base64Str maxWidth with
  | Reencoded canvas => Some (canvasWidth canvas, canvasHeight canvas)
  | OriginalNoContext => loadImage browser base64Str
  | OriginalOnError => None
  end.

Definition cleanBase64 (dataUrl : string) : string :=
  if Js.includes "," dataUrl then nth 1 (Js.split "," dataUrl) EmptyString
  else dataUrl.

(** *** Prompt builder *)

(** The pieces of the two template literals around [${option}]. *)
Definition ANGLE_HEAD : string :=
"You are a professional product photographer. 
    Your task is to photograph the furniture item provided in the input image from a specific new angle.

    Target Viewpoint: ".

Definition ANGLE_TAIL : string :=
".

    CRITICAL INSTRUCTIONS:
    1. TRANSFORMATION: You must rotate the object to match the Target Viewpoint exactly. Do not output the original view.
    2. INFERENCE: If the new view (e.g., Back, Top-down) hides details or reveals unseen areas, logically infer the design based on the item's style and symmetry.
    3. BACKGROUND: Place the object in a professional, neutral studio background (soft grey/white). COMPLETELY REMOVE the original background.
    4. FIDELITY: Keep the materials, colors, and design details identical to the product in the input image.
    5. QUANTITY: PRESERVE EXACT NUMBER OF ITEMS. Do not add or remove any furniture pieces. If the input has 1 chair, the output must have exactly 1 chair.
    
    The result must look like a fresh photo taken from the requested angle, distinctly different from the original image composition.".

Definition SCENE_HEAD : string :=
"You are a professional interior designer and 3D artist.
    Your task is to place the furniture item from the input image into a completely new environment.

    Target Scene: ".

Definition SCENE_MID : string :=
".

    CRITICAL INSTRUCTIONS:
    1. NEW ENVIRONMENT: Place the product in a brand new, high-end, photorealistic ".

Definition SCENE_TAIL : string :=
".
    2. DIFFERENTIATION: The background and lighting MUST be completely different from the original image. Do not preserve the original room context.
    3. INTEGRATION: Ensure realistic shadows, reflections, and lighting that match the new scene.
    4. ISOLATION: Cleanly separate the furniture from its original background before placing it.
    5. QUANTITY: PRESERVE EXACT NUMBER OF ITEMS. Do not add or remove any furniture pieces. If the input has 1 chair, the output must have exactly 1 chair.
    
    The final image should look like a professional catalog photo in a modern home setting.".

(** The value of [prompt] after the [if]/[else if]; [optionLabel] is the
    string value of the selected [AngleOption] or [RoomOption] (source
    name: [option]). *)
Definition prompt (featureType : FeatureType) (optionLabel : string) : string :=
  match featureType with
  | MULTI_ANGLE => ANGLE_HEAD ++ optionLabel ++ ANGLE_TAIL
  | SCENE_PLACEMENT =>
      SCENE_HEAD ++ optionLabel ++ SCENE_MID ++ optionLabel ++ SCENE_TAIL
  end.

(** The sentence both templates carry as instruction 5. *)
Definition QUANTITY_CLAUSE : string :=
  "PRESERVE EXACT NUMBER OF ITEMS. Do not add or remove any furniture pieces. If the input has 1 chair, the output must have exactly 1 chair.".

(** *** Generation client *)

Definition MAX_RETRIES : N := 2.

Definition DATA_URI_PREFIX : string := "data:image/jpeg;base64,".

Definition MSG_NO_IMAGE : string := "Không nhận được kết quả hình ảnh từ Gemini.".
Definition MSG_RATE_LIMIT : string := "Hệ thống đang quá tải (Rate Limit). Vui lòng thử lại sau ít phút.".
Definition MSG_TOO_LARGE : string := "Ảnh quá lớn. Vui lòng chọn ảnh nhỏ hơn.".
Definition MSG_GAVE_UP : string := "Không thể xử lý hình ảnh sau nhiều lần thử.".
Definition KEY_ERROR : string := "KEY_ERROR".

(** The [for (const part of parts)] scan: the data of the first part whose
    [inlineData] and [inlineData.data] are both truthy. *)
Fixpoint firstInlineData (ps : list Part) : option string :=
  match ps with
  | [] => None
  | part :: more =>
      match inlineData part with
      | Some blob =>
          match data blob with
          | Some d => if Js.truthy d then Some d else firstInlineData more
          | None => firstInlineData more
          end
      | None => firstInlineData more
      end
  end.

(** The object returned from inside the scan. *)
Definition successResult (inlineBytes : string) : GenerationResult :=
  let costUsd := ESTIMATED_COST_USD in
  let costVnd := Js.round (costUsd * EXCHANGE_RATE) in
  {| imageUrl := DATA_URI_PREFIX ++ inlineBytes;
     cost := {| usd := "$" ++ Js.toFixed costUsd 4;
                vnd := Js.toLocaleString_viVN costVnd ++ " đ" |} |}.

(** The statements of the [try] block that follow the [await]: [inl] is the
    returned value, [inr] the thrown one. *)
Definition inspectResponse (response : GenerateContentResponse)
  : GenerationResult + JsError :=
  match candidates response with
  | Some (first :: _) =>
      match content first with
      | None =>
          inr (TypeError "Cannot read properties of undefined (reading 'parts')")
      | Some c =>
          match parts c with
          | None => inr (TypeError "parts is not iterable")
          | Some ps =>
              match firstInlineData ps with
              | Some d => inl (successResult d)
              | None => inr (Error MSG_NO_IMAGE)
              end
          end
      end
  | Some [] => inr (Error MSG_NO_IMAGE)
  | None => inr (Error MSG_NO_IMAGE)
  end.

(** The whole [try] block, given what the awaited endpoint call did. *)
Definition tryBlock (outcome : EndpointOutcome) : GenerationResult + JsError :=
  match outcome with
  | Respond response => inspectResponse response
  | Raise error => inr error
  end.

Definition isRateLimit (error : JsError) : bool :=
  messageIncludes error "429" ||
  messageIncludes error "Quota exceeded" ||
  messageIncludes error "RESOURCE_EXHAUSTED".

Definition isKeyError (error : JsError) : bool :=
  messageIncludes error "Requested entity was not found".

Definition isTooLarge (error : JsError) : bool :=
  messageIncludes error "413" || messageIncludes error "too large".

(** How one pass through the loop body ends. *)
Inductive StepResult :=
| StepReturn (result : GenerationResult)
| StepThrow (error : JsError)
| StepContinue (delay : N).

(** The [catch] block at attempt index [attempt]. *)
Definition catchBlock (attempt : N) (error : JsError) : StepResult :=
  if isKeyError error then StepThrow (Error KEY_ERROR)
  else if attempt <? MAX_RETRIES then
    if isRateLimit error then StepContinue ((attempt + 1) * 5000 + 2000)
    else StepContinue 1000
  else if isRateLimit error then StepThrow (Error MSG_RATE_LIMIT)
  else if isTooLarge error then StepThrow (Error MSG_TOO_LARGE)
  else StepThrow error.

(** The loop body. *)
Definition attemptStep (attempt : N) (outcome : EndpointOutcome) : StepResult :=
  match tryBlock outcome with
  | inl result => StepReturn result
  | inr error => catchBlock attempt error
  end.

(** How the [for] statement ends. *)
Inductive LoopResult :=
| LoopReturned (result : GenerationResult)
| LoopThrew (error : JsError)
| LoopExited.

(** The attempt indices the statement
    [for (let attempt = 0; attempt <= MAX_RETRIES; attempt++)] visits; its
    body never assigns [attempt]. *)
Definition attemptIndices : list N :=
  map N.of_nat (seq 0 (S (N.to_nat MAX_RETRIES))).

Section Client.

(** [endpoint i] is what the call made at attempt index [i] does. *)
Variable endpoint : N -> EndpointOutcome.
Variable request : GenerateContentRequest.

Fixpoint runAttempts (attempts : list N) : LoopResult * list Event :=
  match attempts with
  | [] => (LoopExited, [])
  | attempt :: later =>
      match attemptStep attempt (endpoint attempt) with
      | StepReturn result => (LoopReturned result, [EvCall attempt request])
      | StepThrow error => (LoopThrew error, [EvCall attempt request])
      | StepContinue delay =>
          let (ending, events) := runAttempts later in
          (ending, EvCall attempt request :: EvWait delay :: events)
      end
  end.

End Client.

Definition generateFurnitureImage (browser : Browser)
    (endpoint : N -> EndpointOutcome) (originalImageBase64 : string)
    (featureType : FeatureType) (optionLabel : string)
  : Settled GenerationResult * list Event :=
  match compressImage browser originalImageBase64 DEFAULT_MAX_WIDTH DEFAULT_QUALITY with
  | Rejected reason => (Rejected reason, [])
  | Resolved compressedImage =>
      let cleanImage := cleanBase64 compressedImage in
      let request :=
        {| model := MODEL_NAME; requestText := prompt featureType optionLabel;
           requestMimeType := "image/jpeg"; requestData := cleanImage |} in
      match runAttempts endpoint request attemptIndices with
      | (LoopReturned result, events) => (Resolved result, events)
      | (LoopThrew error, events) => (Rejected error, events)
      | (LoopExited, events) => (Rejected (Error MSG_GAVE_UP), events)
      end
  end.

(** Number of endpoint calls in a trace. *)
Fixpoint callCount (events : list Event) : nat :=
  match events with
  | [] => 0%nat
  | EvCall _ _ :: more => S (callCount more)
  | EvWait _ :: more => callCount more
  end.

(** The waits of a trace, in order. *)
Fixpoint delays (events : list Event) : list N :=
  match events with
  | [] => []
  | EvCall _ _ :: more => delays more
  | EvWait ms :: more => ms :: delays more
  end.

End GeminiService.

(** ** App.tsx: the consumer of the client's outcome *)

Module App.

Import GeminiService.

(** Modelled from the spec: the enum [AppStep] of [./types]; the members are
    those the code names. *)
Inductive AppStep := UPLOAD | SELECT_FEATURE | PROCESSING | RESULT.

(** The component's state variables. *)
Record AppState := mkAppState {
  step : AppStep;
  originalImage : option string;
  resultImage : option string;
  costInfo : option CostInfo;
  loading : bool;
  error : option string;
  hasApiKey : bool;
  checkingKey : bool
}.

Definition MSG_DEFAULT : string := "Đã xảy ra lỗi trong quá trình xử lý.".
Definition MSG_KEY : string := "Lỗi xác thực thanh toán. Vui lòng kết nối lại tài khoản.".
Definition MSG_BILLING : string := "Tài khoản thanh toán của bạn đã hết hạn mức. Vui lòng kiểm tra lại Google Cloud Billing.".
Definition MSG_BUSY : string := "Hệ thống đang bận (Quá tải). Vui lòng đợi khoảng 1 phút rồi thử lại.".

(** [err.message || MSG_DEFAULT] *)
Definition messageOrDefault (err : JsError) : string :=
  match message err with
  | Some m => if Js.truthy m then m else MSG_DEFAULT
  | None => MSG_DEFAULT
  end.

(** Whether the [else if] of the [catch] block matches the message. *)
Definition looksRateLimited (errorMessage : string) : bool :=
  Js.includes "429" errorMessage ||
  Js.includes "quota" errorMessage ||
  Js.includes "exhausted" errorMessage ||
  Js.includes "Resource has been exhausted" errorMessage.

(** The [catch] block: the message shown and the new credential flag. *)
Definition classify (err : JsError) (hasKey : bool) : string * bool :=
  let errorMessage := messageOrDefault err in
  if String.eqb errorMessage KEY_ERROR then (MSG_KEY, false)
  else if looksRateLimited errorMessage then
    if Js.includes "limit: 0" errorMessage || Js.includes "limit:0" errorMessage
    then (MSG_BILLING, hasKey)
    else (MSG_BUSY, hasKey)
  else (errorMessage, hasKey).

(** The state after [handleFeatureSelect] has run to its end, and the
    events of the generation call it made.  The first statement returns when
    [originalImage] is falsy ([null] or the empty string). *)
Definition handleFeatureSelect (browser : Browser)
    (endpoint : N -> EndpointOutcome) (st : AppState)
    (feature : FeatureType) (optionLabel : string) : AppState * list Event :=
  match originalImage st with
  | None => (st, [])
  | Some image =>
      if negb (Js.truthy image) then (st, [])
      else
        match generateFurnitureImage browser endpoint image feature optionLabel with
        | (Resolved result, events) =>
            ({| step := RESULT;
                originalImage := originalImage st;
                resultImage := Some (imageUrl result);
                costInfo := Some (cost result);
                loading := false;
                error := None;
                hasApiKey := hasApiKey st;
                checkingKey := checkingKey st |}, events)
        | (Rejected err, events) =>
            let (errorMessage, hasKey) := classify err (hasApiKey st) in
            ({| step := SELECT_FEATURE;
                originalImage := originalImage st;
                resultImage := resultImage st;
                costInfo := costInfo st;
                loading := false;
                error := Some errorMessage;
                hasApiKey := hasKey;
                checkingKey := checkingKey st |}, events)
        end
  end.

(** *** The other handlers and the rendering *)

(** The state the [useState] calls start from. *)
Definition initialState : AppState :=
  {| step := UPLOAD;
     originalImage := None;
     resultImage := None;
     costInfo := None;
     loading := false;
     error := None;
     hasApiKey := false;
     checkingKey := true |}.

(** [window.aistudio]: each of the two methods may be absent; when present,
    the value says how the awaited call settles. *)
Record AiStudio := mkAiStudio {
  hasSelectedApiKey : option (Settled bool);
  openSelectKey : option (Settled unit)
}.

(** The host the component runs in: [window.aistudio] and
    [process.env.API_KEY]. *)
Record Host := mkHost {
  aistudio : option AiStudio;
  API_KEY : option string
}.

Definition MSG_UNSUPPORTED : string := "Chức năng này chỉ hoạt động trong môi trường Google AI Studio hoặc môi trường được hỗ trợ.".

(** [!!process.env.API_KEY] *)
Definition envKeyPresent (host : Host) : bool :=
  match API_KEY host with
  | Some key => Js.truthy key
  | None => false
  end.

Definition withKeyChecked (st : AppState) (hasKey : bool) : AppState :=
  {| step := step st;
     originalImage := originalImage st;
     resultImage := resultImage st;
     costInfo := costInfo st;
     loading := loading st;
     error := error st;
     hasApiKey := hasKey;
     checkingKey := false |}.

(** [checkApiKey]: the [try] sets the flag from the host or from the
    environment, the [catch] sets it to false, the [finally] ends the
    check. *)
Definition checkApiKey (host : Host) (st : AppState) : AppState :=
  match aistudio host with
  | Some studio =>
      match hasSelectedApiKey studio with
      | Some (Resolved hasKey) => withKeyChecked st hasKey
      | Some (Rejected _) => withKeyChecked st false
      | None => withKeyChecked st (envKeyPresent host)
      end
  | None => withKeyChecked st (envKeyPresent host)
  end.

Definition withKey (st : AppState) (hasKey : bool) : AppState :=
  {| step := step st;
     originalImage := originalImage st;
     resultImage := resultImage st;
     costInfo := costInfo st;
     loading := loading st;
     error := error st;
     hasApiKey := hasKey;
     checkingKey := checkingKey st |}.

(** [handleConnectBilling]: the new state and the text of the [alert], if
    one is raised. *)
Definition handleConnectBilling (host : Host) (st : AppState)
  : AppState * option string :=
  match aistudio host with
  | Some studio =>
      match openSelectKey studio with
      | Some (Resolved _) => (withKey st true, None)
      | Some (Rejected _) => (st, None)
      | None => (st, Some MSG_UNSUPPORTED)
      end
  | None => (st, Some MSG_UNSUPPORTED)
  end.



Definition handleBackToSelect (st : AppState) : AppState :=
  {| step := SELECT_FEATURE;
     originalImage := originalImage st;
     resultImage := resultImage st;
     costInfo := costInfo st;
     loading := loading st;
     error := error st;
     hasApiKey := hasApiKey st;
     checkingKey := checkingKey st |}.




(** What the component's [return] puts inside [<main>] below the banner:
    of the four conditional children, the one whose condition holds. *)
Inductive MainBody :=
| UploadSectionView
| FeatureSelectorView (imageSrc : string)
| ProcessingView
| ResultViewOf (original result : string) (shownCost : option CostInfo).

Inductive Screen :=
| CheckingScreen
| BillingGate
| MainScreen (banner : option string) (body : option MainBody).

(** A string state variable used as a condition: the value when truthy. *)
Definition whenTruthy (value : option string) : option string :=
  match value with
  | Some s => if Js.truthy s then Some s else None
  | None => None
  end.

Definition renderBody (st : AppState) : option MainBody :=
  match step st with
  | UPLOAD => Some UploadSectionView
  | SELECT_FEATURE =>
      match whenTruthy (originalImage st) with
      | Some image => Some (FeatureSelectorView image)
      | None => None
      end
  | PROCESSING => Some ProcessingView
  | RESULT =>
      match whenTruthy (originalImage st), whenTruthy (resultImage st) with
      | Some original, Some result =>
          Some (ResultViewOf original result (costInfo st))
      | _, _ => None
      end
  end.

Definition render (st : AppState) : Screen :=
  if checkingKey st then CheckingScreen
  else if negb (hasApiKey st) then BillingGate
  else MainScreen (whenTruthy (error st)) (renderBody st).


End App.

(** * Vocabulary of the properties

    Predicates in which the properties below are stated, and the concrete
    browsers, endpoints and states at which they are instantiated. *)

Import GeminiService.

(** [r] is the integer nearest to [p / q], a tie going up. *)
Definition nearest (p q r : N) : Prop :=
  2 * (r * q) <= 2 * p + q /\ 2 * p + q < 2 * (r * q) + 2 * q.

(** What the spec asks of the size [(w', h')] of the preprocessed image,
    given the size [(w, h)] of the input and the cap:
    the longer edge is within the cap; an image within the cap keeps its
    size; no edge grows; and when the image is scaled, the longer edge
    becomes the cap and the shorter one the nearest integer to its
    proportional length. *)
Definition preprocessed (cap w h w' h' : N) : Prop :=
  N.max w' h' <= cap /\
  (N.max w h <= cap -> w' = w /\ h' = h) /\
  (w' <= w /\ h' <= h) /\
  (cap < N.max w h ->
     (h < w -> w' = cap /\ nearest (h * cap) w h') /\
     (w <= h -> h' = cap /\ nearest (w * cap) h w')).

(** A browser that decodes every input as a 2000 x 1000 image and hands
    out no drawing context. *)
Definition browserWithoutContext : Browser :=
  {| loadImage := fun _ => Some (2000, 1000);
     getContext2d := fun _ _ => false;
     toDataURL := fun _ _ _ => "data:image/jpeg;base64,/9j/4AAQ" |}.

(** A browser that decodes every input as a 2000 x 1000 image and encodes
    every canvas to the same data URL. *)
Definition browserPlain : Browser :=
  {| loadImage := fun _ => Some (2000, 1000);
     getContext2d := fun _ _ => true;
     toDataURL := fun _ _ _ => "data:image/jpeg;base64,/9j/4AAQ" |}.

(** A browser in which no input decodes. *)
Definition browserNoDecode : Browser :=
  {| loadImage := fun _ => None;
     getContext2d := fun _ _ => true;
     toDataURL := fun _ _ _ => "data:image/jpeg;base64,/9j/4AAQ" |}.

(** Thrown values used as examples. *)
Definition entityNotFound : JsError := Error "Requested entity was not found.".
Definition tooManyRequests : JsError :=
  Error "got status: 429 Too Many Requests. RESOURCE_EXHAUSTED".
Definition fetchFailed : JsError := Error "fetch failed".
Definition entityNotFound429 : JsError :=
  Error "429: Requested entity was not found.".
Definition quotaLowercase : JsError := Error "You exceeded your current quota".

(** An endpoint that throws the same value at every attempt. *)
Definition alwaysRaise (error : JsError) : N -> EndpointOutcome :=
  fun _ => Raise error.

(** The delay the retry policy prescribes after a failed attempt that is
    not the last. *)
Definition retryDelay (attempt : N) (error : JsError) : N :=
  if isRateLimit error then (attempt + 1) * 5000 + 2000 else 1000.

(** The rate-limit signals as the spec lists them. *)
Definition SPEC_RATE_LIMIT_SIGNALS : list string :=
  ["429"; "quota"; "exhausted"; "Resource has been exhausted";
   "RESOURCE_EXHAUSTED"; "Quota exceeded"].

(** The signals the client's [isRateLimit] tests for. *)
Definition CLIENT_RATE_LIMIT_SIGNALS : list string :=
  ["429"; "Quota exceeded"; "RESOURCE_EXHAUSTED"].

(** The error's message contains one of the given signals. *)
Definition signalled (signals : list string) (error : JsError) : Prop :=
  exists m signal before after,
    message error = Some m /\ In signal signals /\
    m = before ++ signal ++ after.

(** A state of the component in which an image has been uploaded and a
    credential is believed valid. *)
Definition stateWithImage (image : string) : App.AppState :=
  {| App.step := App.SELECT_FEATURE;
     App.originalImage := Some image;
     App.resultImage := None;
     App.costInfo := None;
     App.loading := false;
     App.error := None;
     App.hasApiKey := true;
     App.checkingKey := false |}.

(** The part carries inline data the scan accepts: [inlineData] and
    [inlineData.data] are both truthy. *)
Definition hasInlineData (part : Part) : bool :=
  match inlineData part with
  | Some blob =>
      match data blob with
      | Some d => Js.truthy d
      | None => false
      end
  | None => false
  end.

Definition candidateHasImage (candidate : Candidate) : bool :=
  match content candidate with
  | Some c =>
      match parts c with
      | Some ps => existsb hasInlineData ps
      | None => false
      end
  | None => false
  end.

(** The success condition in the spec's words: at least one candidate whose
    content includes a part with inline image data. *)
Definition someCandidateHasImage (response : GenerateContentResponse) : bool :=
  match candidates response with
  | Some cs => existsb candidateHasImage cs
  | None => false
  end.

(** The same condition on the first candidate only. *)
Definition firstCandidateHasImage (response : GenerateContentResponse) : bool :=
  match candidates response with
  | Some (first :: _) => candidateHasImage first
  | _ => false
  end.

(** The parts list of the first candidate, when the response has one. *)
Definition firstCandidateParts (response : GenerateContentResponse)
  : option (list Part) :=
  match candidates response with
  | Some (first :: _) =>
      match content first with
      | Some c => parts c
      | None => None
      end
  | _ => None
  end.

(** The response has no candidate at all. *)
Definition noCandidates (response : GenerateContentResponse) : Prop :=
  candidates response = None \/ candidates response = Some [].

Definition textPart (t : string) : Part :=
  {| text := Some t; inlineData := None |}.

Definition imagePart (bytes : string) : Part :=
  {| text := None;
     inlineData := Some {| data := Some bytes; mimeType := Some "image/png" |} |}.

Definition candidateOf (ps : list Part) : Candidate :=
  {| content := Some {| parts := Some ps |} |}.

(** A response with one candidate: a text part, then an image part. *)
Definition imageResponse (bytes : string) : GenerateContentResponse :=
  {| candidates := Some [candidateOf [textPart "Here it is."; imagePart bytes]] |}.

(** A response whose first candidate has only text and whose second
    candidate has the image. *)
Definition imageInSecondCandidate : GenerateContentResponse :=
  {| candidates :=
       Some [candidateOf [textPart "Here it is."];
             candidateOf [imagePart "iVBORw0KGgo="]] |}.

(** The cost attached to every result. *)
Definition FIXED_COST : CostInfo := {| usd := "$0.0020"; vnd := "51 đ" |}.

(** The client's own messages in the user's language. *)
Definition LOCALIZED_MESSAGES : list string :=
  [MSG_RATE_LIMIT; MSG_TOO_LARGE; MSG_NO_IMAGE; MSG_GAVE_UP].

(** The error is one the client made itself, with a localized message. *)
Definition localized (error : JsError) : Prop :=
  exists m, In m LOCALIZED_MESSAGES /\ error = Error m.

(** An endpoint that answers every call with the same response. *)
Definition alwaysRespond (response : GenerateContentResponse)
  : N -> EndpointOutcome :=
  fun _ => Respond response.

(** An endpoint whose first call throws and whose later calls answer. *)
Definition failOnceThen (error : JsError) (response : GenerateContentResponse)
  : N -> EndpointOutcome :=
  fun attempt => if attempt =? 0 then Raise error else Respond response.

(** The string has no comma. *)
Definition commaFree (s : string) : Prop := Js.includes "," s = false.

(** Sum of the waits of a trace, in milliseconds. *)
Definition totalDelay (events : list Event) : N :=
  fold_right N.add 0 (delays events).

(** The request every attempt of a call sends, given the preprocessed
    image. *)
Definition requestFor (compressed : string) (featureType : FeatureType)
    (optionLabel : string) : GenerateContentRequest :=
  {| model := MODEL_NAME;
     requestText := prompt featureType optionLabel;
     requestMimeType := "image/jpeg";
     requestData := cleanBase64 compressed |}.

(** A host whose key dialog closes normally. *)
Definition hostWithDialog : App.Host :=
  {| App.aistudio :=
       Some {| App.hasSelectedApiKey := Some (Resolved false);
               App.openSelectKey := Some (Resolved tt) |};
     App.API_KEY := None |}.



(** The signals the caller's [catch] block tests the shown message for. *)
Definition CALLER_RATE_LIMIT_SIGNALS : list string :=
  ["429"; "quota"; "exhausted"; "Resource has been exhausted"].

(** The signals of the spec's list that only the caller tests for. *)
Definition CALLER_ONLY_SIGNALS : list string :=
  ["quota"; "exhausted"; "Resource has been exhausted"].

(** The text contains one of the given signals. *)
Definition containsSignal (signals : list string) (m : string) : Prop :=
  exists signal before after,
    In signal signals /\ m = before ++ signal ++ after.

(** The shape of a call's trace: attempts at indices 0, 1, 2 in order, all
    with one request, one wait between two consecutive attempts and none
    after the last. *)
Definition traceShape (request : GenerateContentRequest) (events : list Event)
  : Prop :=
  events = [EvCall 0 request] \/
  (exists d0, events = [EvCall 0 request; EvWait d0; EvCall 1 request]) \/
  (exists d0 d1,
     events = [EvCall 0 request; EvWait d0; EvCall 1 request;
               EvWait d1; EvCall 2 request]).
(** * Properties *)

(** ** Facts about [includes] *)

Module JsFacts.

Lemma prefix_append (s t : string) : String.prefix s (s ++ t) = true.
Proof.
  induction s as [|a s IH]; simpl.
  - now destruct t.
  - destruct (ascii_dec a a) as [_|ne]; [exact IH | now elim ne].
Qed.

Lemma includes_here (needle after : string) :
  Js.includes needle (needle ++ after) = true.
Proof.
  destruct needle as [|a s]; simpl.
  - now destruct after.
  - destruct (ascii_dec a a) as [_|ne]; [|now elim ne].
    now rewrite prefix_append.
Qed.

Lemma includes_skip (needle before hay : string) :
  Js.includes needle hay = true -> Js.includes needle (before ++ hay) = true.
Proof.
  intros H. induction before as [|a s IH]; simpl; [exact H|].
  rewrite IH. apply orb_true_r.
Qed.

Lemma includes_middle (needle before after : string) :
  Js.includes needle (before ++ needle ++ after) = true.
Proof. apply includes_skip, includes_here. Qed.

Lemma prefix_split (p s : string) :
  String.prefix p s = true -> exists t, s = p ++ t.
Proof.
  revert s. induction p as [|a p IH]; intros s H.
  - now exists s.
  - destruct s as [|b s]; simpl in H; [discriminate|].
    destruct (ascii_dec a b) as [->|]; [|discriminate].
    destruct (IH _ H) as [t ->]. now exists t.
Qed.

(** [includes] is substring containment. *)
Lemma includes_iff (needle hay : string) :
  Js.includes needle hay = true <->
  exists before after, hay = before ++ needle ++ after.
Proof.
  split.
  - induction hay as [|a h IH]; intros H.
    + destruct needle; [|discriminate]. now exists EmptyString, EmptyString.
    + cbn [Js.includes] in H. apply orb_true_iff in H as [H|H].
      * destruct (prefix_split _ _ H) as [t E]. exists EmptyString, t. exact E.
      * destruct (IH H) as (b & c & ->). now exists (String a b), c.
  - intros (b & c & ->). apply includes_middle.
Qed.

End JsFacts.

(** ** Prompt builder *)

(** C9: for both feature types and every option label, the prompt contains
    the label itself and the clause that instructs the model to keep the
    number of items exactly as in the input. *)
Theorem prompt_contains_label_and_quantity_clause
    (featureType : FeatureType) (optionLabel : string) :
  Js.includes optionLabel (prompt featureType optionLabel) = true /\
  Js.includes QUANTITY_CLAUSE (prompt featureType optionLabel) = true /\
  Js.includes "the output must have exactly 1 chair" QUANTITY_CLAUSE = true.
Proof.
  split; [|split].
  - destruct featureType; apply JsFacts.includes_middle.
  - destruct featureType; unfold prompt.
    + do 2 apply JsFacts.includes_skip. vm_compute. reflexivity.
    + do 4 apply JsFacts.includes_skip. vm_compute. reflexivity.
  - vm_compute. reflexivity.
Qed.

(** ** Image preprocessor *)

Module RoundFacts.


Lemma roundDiv_nearest (p q : N) : 0 < q -> nearest p q (Js.roundDiv p q).
Proof.
  intros Hq. unfold nearest, Js.roundDiv.
  pose proof (N.div_mod (2 * p + q) (2 * q)) as E.
  pose proof (N.mod_lt (2 * p + q) (2 * q)) as L.
  set (r := (2 * p + q) / (2 * q)) in *.
  set (m := (2 * p + q) mod (2 * q)) in *.
  lia.
Qed.

(** Scaling the shorter edge [a] of an image whose longer edge is [b]. *)
Lemma roundDiv_le_cap (a b cap : N) :
  0 < b -> a <= b -> Js.roundDiv (a * cap) b <= cap.
Proof.
  intros Hb Hab. destruct (roundDiv_nearest (a * cap) b Hb) as [lo _].
  set (r := Js.roundDiv (a * cap) b) in *. nia.
Qed.

Lemma roundDiv_le_edge (a b cap : N) :
  cap < b -> Js.roundDiv (a * cap) b <= a.
Proof.
  intros Hb. assert (0 < b) as Hpos by lia.
  destruct (roundDiv_nearest (a * cap) b Hpos) as [lo _].
  set (r := Js.roundDiv (a * cap) b) in *. nia.
Qed.

End RoundFacts.


Lemma attemptIndices_eq : attemptIndices = [0; 1; 2].
Proof. reflexivity. Qed.

Lemma scaledSize_preprocessed (cap w h : N) :
  preprocessed cap w h (fst (scaledSize cap w h)) (snd (scaledSize cap w h)).
Proof.
  unfold scaledSize, preprocessed.
  destruct (N.ltb_spec h w) as [Hhw|Hwh];
    [destruct (N.ltb_spec cap w) as [Hc|Hc] | destruct (N.ltb_spec cap h) as [Hc|Hc]];
    cbn [fst snd].
  - pose proof (RoundFacts.roundDiv_le_cap h w cap ltac:(lia) ltac:(lia)).
    pose proof (RoundFacts.roundDiv_le_edge h w cap Hc).
    pose proof (RoundFacts.roundDiv_nearest (h * cap) w ltac:(lia)).
    unfold nearest in *. repeat split; lia.
  - repeat split; lia.
  - pose proof (RoundFacts.roundDiv_le_cap w h cap ltac:(lia) Hwh).
    pose proof (RoundFacts.roundDiv_le_edge w h cap Hc).
    pose proof (RoundFacts.roundDiv_nearest (w * cap) h ltac:(lia)).
    unfold nearest in *. repeat split; lia.
  - repeat split; lia.
Qed.

Lemma compressPath_loaded (browser : Browser) (s : string) (cap w h : N) :
  loadImage browser s = Some (w, h) ->
  compressPath browser s cap =
    let size := scaledSize cap w h in
    if getContext2d browser (fst size) (snd size) then
      Reencoded {| canvasWidth := fst size; canvasHeight := snd size;
                   drawn := Some (mkDrawImage s 0 0 (fst size) (snd size)) |}
    else OriginalNoContext.
Proof.
  intros E. unfold compressPath. rewrite E.
  now destruct (scaledSize cap w h).
Qed.

(** The trace of a non-empty run starts with the call of its first index. *)
Lemma runAttempts_first endpoint request (attempt : N) (later : list N) :
  exists events,
    snd (runAttempts endpoint request (attempt :: later))
    = EvCall attempt request :: events.
Proof.
  cbn [runAttempts].
  destruct (attemptStep attempt (endpoint attempt)); cbn [snd]; eauto.
  destruct (runAttempts endpoint request later). cbn [snd]. eauto.
Qed.




(** C7, as stated, fails: an image that decodes but for which no drawing
    context is obtained comes back unchanged, longer edge 2000. *)
Lemma compressImage_cap_needs_context :
  ~ (forall (browser : Browser) (s : string) (w h : N),
       loadImage browser s = Some (w, h) ->
       exists w' h',
         outputSize browser s DEFAULT_MAX_WIDTH = Some (w', h') /\
         preprocessed DEFAULT_MAX_WIDTH w h w' h').
Proof.
  intros claim.
  destruct (claim browserWithoutContext "photo" 2000 1000 eq_refl)
    as (w' & h' & Hsize & Hcap & _).
  vm_compute in Hsize. injection Hsize as <- <-.
  vm_compute in Hcap. now apply Hcap.
Qed.

(** C7 (amended): for every input image that decodes and for whose canvas a
    drawing context is obtained, the re-encoded output has the size computed
    by [scaledSize] with cap 1024: longer edge at most 1024, unchanged when
    both edges are within 1024, never larger than the input, and otherwise
    the longer edge 1024 with the shorter edge rounded from its
    proportional length. *)
Theorem compressImage_size (browser : Browser) (s : string) (w h : N) :
  loadImage browser s = Some (w, h) ->
  getContext2d browser (fst (scaledSize DEFAULT_MAX_WIDTH w h))
                       (snd (scaledSize DEFAULT_MAX_WIDTH w h)) = true ->
  exists w' h',
    outputSize browser s DEFAULT_MAX_WIDTH = Some (w', h') /\
    (w', h') = scaledSize DEFAULT_MAX_WIDTH w h /\
    preprocessed 1024 w h w' h'.
Proof.
  intros Hload Hctx.
  exists (fst (scaledSize DEFAULT_MAX_WIDTH w h)),
         (snd (scaledSize DEFAULT_MAX_WIDTH w h)).
  split; [|split].
  - unfold outputSize. rewrite (compressPath_loaded _ _ _ _ _ Hload).
    cbv zeta. now rewrite Hctx.
  - now destruct (scaledSize DEFAULT_MAX_WIDTH w h).
  - apply scaledSize_preprocessed.
Qed.

Lemma compressImage_size_witness :
  exists w' h',
    outputSize browserPlain "photo" DEFAULT_MAX_WIDTH = Some (w', h') /\
    (w', h') = scaledSize DEFAULT_MAX_WIDTH 2000 1000 /\
    preprocessed 1024 2000 1000 w' h'.
Proof.
  apply (compressImage_size browserPlain "photo" 2000 1000); reflexivity.
Defined.

(** C8: the preprocessor's promise is never rejected; when the image does
    not decode, or no drawing context is obtained, it resolves with the
    input string itself; and whatever the browser does, the generation call
    goes on to its first endpoint call. *)
Theorem compressImage_never_rejects
    (browser : Browser) (s : string) (maxWidth : N) (quality : Q) :
  (exists v, compressImage browser s maxWidth quality = Resolved v) /\
  (loadImage browser s = None ->
     compressImage browser s maxWidth quality = Resolved s) /\
  (forall w h,
     loadImage browser s = Some (w, h) ->
     getContext2d browser (fst (scaledSize maxWidth w h))
                          (snd (scaledSize maxWidth w h)) = false ->
     compressImage browser s maxWidth quality = Resolved s) /\
  (forall endpoint featureType optionLabel,
     exists request events,
       snd (generateFurnitureImage browser endpoint s featureType optionLabel)
       = EvCall 0 request :: events).
Proof.
  split; [|split; [|split]].
  - unfold compressImage. destruct (compressPath browser s maxWidth); eauto.
  - intros E. unfold compressImage, compressPath. now rewrite E.
  - intros w h E C. unfold compressImage.
    rewrite (compressPath_loaded _ _ _ _ _ E). cbv zeta. now rewrite C.
  - intros endpoint featureType optionLabel. unfold generateFurnitureImage.
    assert (exists v, compressImage browser s DEFAULT_MAX_WIDTH DEFAULT_QUALITY
                      = Resolved v) as [v ->]
      by (unfold compressImage; destruct (compressPath browser s _); eauto).
    rewrite attemptIndices_eq.
    match goal with
    | |- context [runAttempts endpoint ?r (0 :: ?l)] =>
        destruct (runAttempts_first endpoint r 0 l) as [events E];
        destruct (runAttempts endpoint r (0 :: l)) as [[?|?|] ?]
    end; cbn [snd] in *; eauto.
Qed.

Lemma compressImage_never_rejects_witness :
  compressImage browserNoDecode "not an image" 1024 (8 # 10)
    = Resolved "not an image" /\
  compressImage browserWithoutContext "photo" 1024 (8 # 10) = Resolved "photo".
Proof.
  split.
  - apply (compressImage_never_rejects browserNoDecode "not an image" 1024 (8 # 10)).
    reflexivity.
  - apply (proj1 (proj2 (proj2
      (compressImage_never_rejects browserWithoutContext "photo" 1024 (8 # 10))))
      2000 1000); reflexivity.
Defined.

(** ** Generation client: the retry loop *)

Lemma catchBlock_last_throws (error : JsError) :
  exists thrown, catchBlock MAX_RETRIES error = StepThrow thrown.
Proof.
  unfold catchBlock. change (MAX_RETRIES <? MAX_RETRIES) with false.
  destruct (isKeyError error), (isRateLimit error), (isTooLarge error); eauto.
Qed.

Lemma catchBlock_never_returns (attempt : N) (error : JsError) result :
  catchBlock attempt error <> StepReturn result.
Proof.
  unfold catchBlock.
  destruct (isKeyError error), (attempt <? MAX_RETRIES), (isRateLimit error),
    (isTooLarge error); discriminate.
Qed.

Lemma attemptStep_last_ends (outcome : EndpointOutcome) (delay : N) :
  attemptStep MAX_RETRIES outcome <> StepContinue delay.
Proof.
  unfold attemptStep. destruct (tryBlock outcome) as [r|e]; [discriminate|].
  destruct (catchBlock_last_throws e) as [t ->]. discriminate.
Qed.

Lemma catchBlock_retry (attempt : N) (error : JsError) :
  attempt < MAX_RETRIES -> isKeyError error = false ->
  catchBlock attempt error = StepContinue (retryDelay attempt error).
Proof.
  intros Hlt Hkey. unfold catchBlock, retryDelay. rewrite Hkey.
  apply N.ltb_lt in Hlt. rewrite Hlt. now destruct (isRateLimit error).
Qed.

Lemma attemptStep_failure (attempt : N) (outcome : EndpointOutcome) error :
  tryBlock outcome = inr error ->
  attemptStep attempt outcome = catchBlock attempt error.
Proof. intros E. unfold attemptStep. now rewrite E. Qed.

(** Splits on how each attempt of the run ends; an attempt at the last
    index that asks for another one is shown impossible. *)
Ltac by_attempts :=
  repeat match goal with
  | |- context [attemptStep ?i (?f ?i)] =>
      let S := fresh "Step" in
      destruct (attemptStep i (f i)) eqn:S
  end;
  try match goal with
  | S : attemptStep 2 _ = StepContinue _ |- _ =>
      now elim (attemptStep_last_ends _ _ S)
  end.

(** The run over the three attempt indices, with the preprocessing done. *)
Lemma generateFurnitureImage_run browser endpoint image featureType optionLabel :
  exists request,
    generateFurnitureImage browser endpoint image featureType optionLabel =
    match runAttempts endpoint request [0; 1; 2] with
    | (LoopReturned result, events) => (Resolved result, events)
    | (LoopThrew error, events) => (Rejected error, events)
    | (LoopExited, events) => (Rejected (Error MSG_GAVE_UP), events)
    end.
Proof.
  unfold generateFurnitureImage, compressImage.
  destruct (compressPath browser image DEFAULT_MAX_WIDTH); eexists; reflexivity.
Qed.

(** C10: the loop never ends by its condition becoming false, so the
    statement after it is never reached: every pass through the body
    returns, throws or continues, and the pass at index [MAX_RETRIES]
    never continues because its catch block always throws. *)
Theorem loop_never_exits_normally
    (endpoint : N -> EndpointOutcome) (request : GenerateContentRequest) :
  fst (runAttempts endpoint request attemptIndices) <> LoopExited /\
  (forall error, exists thrown,
     catchBlock MAX_RETRIES error = StepThrow thrown) /\
  (forall outcome delay,
     attemptStep MAX_RETRIES outcome <> StepContinue delay).
Proof.
  split; [|split].
  - rewrite attemptIndices_eq. cbn [runAttempts]. by_attempts; discriminate.
  - apply catchBlock_last_throws.
  - apply attemptStep_last_ends.
Qed.

(** The trace of a run has one of three shapes. *)
Lemma trace_shape browser endpoint image featureType optionLabel :
  exists request,
    let events :=
      snd (generateFurnitureImage browser endpoint image featureType optionLabel) in
    events = [EvCall 0 request] \/
    (exists d0, attemptStep 0 (endpoint 0) = StepContinue d0 /\
       events = [EvCall 0 request; EvWait d0; EvCall 1 request]) \/
    (exists d0 d1,
       attemptStep 0 (endpoint 0) = StepContinue d0 /\
       attemptStep 1 (endpoint 1) = StepContinue d1 /\
       events = [EvCall 0 request; EvWait d0; EvCall 1 request;
                 EvWait d1; EvCall 2 request]).
Proof.
  destruct (generateFurnitureImage_run browser endpoint image featureType
              optionLabel) as [request ->].
  exists request. cbn [runAttempts]. by_attempts; cbn [snd]; eauto 8.
Qed.

(** C1, as stated, fails where the entity-not-found signal is involved: an
    endpoint that throws that error at every attempt is called once, not
    three times; and a rate-limit-class error that also carries the signal
    is followed by no wait at all. *)
Lemma failing_endpoint_called_once :
  ~ (forall browser endpoint image featureType optionLabel,
       (forall i, exists error, endpoint i = Raise error) ->
       callCount
         (snd (generateFurnitureImage browser endpoint image featureType
                 optionLabel)) = 3%nat) /\
  ~ (forall attempt error,
       attempt < MAX_RETRIES -> isRateLimit error = true ->
       catchBlock attempt error = StepContinue ((attempt + 1) * 5000 + 2000)).
Proof.
  split.
  - intros claim.
    specialize (claim browserPlain (alwaysRaise entityNotFound) "photo"
                  MULTI_ANGLE "Front").
    assert (forall i : N, exists error,
              alwaysRaise entityNotFound i = Raise error)
      as H by (intros i; now exists entityNotFound).
    specialize (claim H). vm_compute in claim. discriminate.
  - intros claim.
    specialize (claim 0 entityNotFound429 eq_refl eq_refl).
    vm_compute in claim. discriminate.
Qed.

(** C1 (amended): a call makes at most 3 attempts; a failed attempt that is
    not the last and whose error lacks the entity-not-found signal is
    followed by a wait of [(attempt + 1) * 5000 + 2000] ms when the error is
    rate-limit-class and of 1000 ms otherwise; and when every attempt fails
    with an error lacking that signal, the endpoint is called exactly 3
    times, with exactly those two waits between the calls. *)
Theorem retry_policy browser endpoint image featureType optionLabel :
  let events :=
    snd (generateFurnitureImage browser endpoint image featureType optionLabel) in
  (callCount events <= 3)%nat /\
  (forall attempt error,
     attempt < MAX_RETRIES -> isKeyError error = false ->
     catchBlock attempt error =
     StepContinue (if isRateLimit error then (attempt + 1) * 5000 + 2000
                   else 1000)) /\
  ((forall i, i <= MAX_RETRIES ->
      exists error, tryBlock (endpoint i) = inr error /\ isKeyError error = false) ->
   callCount events = 3%nat /\
   exists e0 e1 request,
     tryBlock (endpoint 0) = inr e0 /\ tryBlock (endpoint 1) = inr e1 /\
     events = [EvCall 0 request; EvWait (retryDelay 0 e0);
               EvCall 1 request; EvWait (retryDelay 1 e1);
               EvCall 2 request]).
Proof.
  intros events. split; [|split].
  - destruct (trace_shape browser endpoint image featureType optionLabel)
      as [request [E|[(d0 & _ & E)|(d0 & d1 & _ & _ & E)]]];
      subst events; cbv zeta in E; rewrite E; cbn; lia.
  - intros attempt error Hlt Hkey. now rewrite catchBlock_retry.
  - intros Hfail.
    destruct (Hfail 0 ltac:(discriminate)) as (e0 & T0 & K0).
    destruct (Hfail 1 ltac:(discriminate)) as (e1 & T1 & K1).
    assert (attemptStep 0 (endpoint 0) = StepContinue (retryDelay 0 e0)) as S0
      by (rewrite (attemptStep_failure _ _ _ T0); now apply catchBlock_retry).
    assert (attemptStep 1 (endpoint 1) = StepContinue (retryDelay 1 e1)) as S1
      by (rewrite (attemptStep_failure _ _ _ T1); now apply catchBlock_retry).
    subst events.
    destruct (generateFurnitureImage_run browser endpoint image featureType
                optionLabel) as [request ->].
    cbn [runAttempts]. rewrite S0, S1.
    by_attempts; cbn [snd callCount]; (split; [reflexivity|]);
      exists e0, e1, request; auto.
Qed.

Lemma retry_policy_witness :
  callCount
    (snd (generateFurnitureImage browserPlain (alwaysRaise tooManyRequests)
            "photo" MULTI_ANGLE "Front")) = 3%nat /\
  catchBlock 1 tooManyRequests = StepContinue 12000 /\
  catchBlock 0 fetchFailed = StepContinue 1000.
Proof.
  pose proof (retry_policy browserPlain (alwaysRaise tooManyRequests) "photo"
                MULTI_ANGLE "Front") as (_ & Hwait & Hall).
  split; [|split].
  - apply Hall. intros i _. exists tooManyRequests. split; reflexivity.
  - apply (Hwait 1 tooManyRequests); reflexivity.
  - apply (Hwait 0 fetchFailed); reflexivity.
Defined.

(** ** Generation client: classification of errors *)

Lemma messageIncludes_iff (error : JsError) (needle : string) :
  messageIncludes error needle = true <->
  exists m before after,
    message error = Some m /\ m = before ++ needle ++ after.
Proof.
  unfold messageIncludes. destruct (message error) as [m|].
  - rewrite JsFacts.includes_iff. split.
    + intros (b & a & E). now exists m, b, a.
    + intros (m' & b & a & [= <-] & E). now exists b, a.
  - split; [discriminate | now intros (m & _ & _ & [=] & _)].
Qed.

Lemma isRateLimit_iff (error : JsError) :
  isRateLimit error = true <-> signalled CLIENT_RATE_LIMIT_SIGNALS error.
Proof.
  unfold isRateLimit, signalled, CLIENT_RATE_LIMIT_SIGNALS.
  rewrite !orb_true_iff, !messageIncludes_iff. split.
  - intros [[(m & b & a & M & E)|(m & b & a & M & E)]|(m & b & a & M & E)];
      exists m; eexists; exists b, a; (split; [exact M|split; [|exact E]]);
      cbn; auto.
  - intros (m & signal & b & a & M & [<-|[<-|[<-|[]]]] & E);
      [left; left | left; right | right]; now exists m, b, a.
Qed.

(** C2, as stated, fails: the message "You exceeded your current quota"
    carries the signal [quota] of the spec's list, and the client does not
    class it as a rate limit. *)
Lemma lowercase_quota_not_rate_limit :
  ~ (forall error,
       isRateLimit error = true <-> signalled SPEC_RATE_LIMIT_SIGNALS error).
Proof.
  intros claim. destruct (claim quotaLowercase) as [_ back].
  assert (isRateLimit quotaLowercase = true) as H.
  { apply back. exists "You exceeded your current quota", "quota",
      "You exceeded your current ", EmptyString.
    split; [reflexivity|]. split; [cbn; auto | reflexivity]. }
  vm_compute in H. discriminate.
Qed.

Lemma looksRateLimited_iff (m : string) :
  App.looksRateLimited m = true <-> containsSignal CALLER_RATE_LIMIT_SIGNALS m.
Proof.
  unfold App.looksRateLimited, containsSignal, CALLER_RATE_LIMIT_SIGNALS.
  rewrite !orb_true_iff, !JsFacts.includes_iff. split.
  - intros [[[(b & a & E)|(b & a & E)]|(b & a & E)]|(b & a & E)];
      eexists; exists b, a; (split; [|exact E]); cbn; auto.
  - intros (signal & b & a & [<-|[<-|[<-|[<-|[]]]]] & E);
      [left; left; left | left; left; right | left; right | right];
      now exists b, a.
Qed.

(** C2 (amended): the client classes an error as rate-limit exactly when
    its message contains [429], [Quota exceeded] or [RESOURCE_EXHAUSTED].
    For an error without the entity-not-found signal, an attempt before the
    last answers with the backoff delay exactly when the error is so
    classed, and the last attempt raises the localized overloaded message
    when it is, and otherwise the too-large message or the error itself.
    The caller tests the message it derives from the surfaced error for
    [429], [quota], [exhausted] and [Resource has been exhausted], exactly
    these; when that message is not [KEY_ERROR] and carries one of them, the
    caller shows its own busy message, or its billing message when the
    text has [limit: 0] or [limit:0], and leaves the credential flag as it
    is.  The three signals [quota], [exhausted] and [Resource has been
    exhausted] are not rate-limit signals for the client. *)
Theorem rate_limit_classification (error : JsError) :
  (isRateLimit error = true <-> signalled CLIENT_RATE_LIMIT_SIGNALS error) /\
  (isKeyError error = false ->
   (forall attempt, attempt < MAX_RETRIES ->
      (catchBlock attempt error = StepContinue ((attempt + 1) * 5000 + 2000)
       <-> isRateLimit error = true)) /\
   (isRateLimit error = true ->
      catchBlock MAX_RETRIES error = StepThrow (Error MSG_RATE_LIMIT)) /\
   (isRateLimit error = false ->
      catchBlock MAX_RETRIES error =
      StepThrow (if isTooLarge error then Error MSG_TOO_LARGE else error))) /\
  (forall hasKey,
     let errorMessage := App.messageOrDefault error in
     (App.looksRateLimited errorMessage = true <->
      containsSignal CALLER_RATE_LIMIT_SIGNALS errorMessage) /\
     (errorMessage <> KEY_ERROR ->
      App.looksRateLimited errorMessage = true ->
      App.classify error hasKey =
      (if Js.includes "limit: 0" errorMessage ||
          Js.includes "limit:0" errorMessage
       then App.MSG_BILLING else App.MSG_BUSY, hasKey))) /\
  Forall (fun signal =>
            isRateLimit (Error signal) = false /\
            App.looksRateLimited signal = true)
         CALLER_ONLY_SIGNALS.
Proof.
  split; [apply isRateLimit_iff|]. split; [|split].
  - intros Hkey. split; [|split].
    + intros attempt Hlt. rewrite (catchBlock_retry _ _ Hlt Hkey).
      unfold retryDelay. destruct (isRateLimit error); split; auto.
      * intros [= E]. lia.
      * discriminate.
    + intros R. unfold catchBlock. rewrite Hkey, R. reflexivity.
    + intros R. unfold catchBlock. rewrite Hkey, R.
      change (MAX_RETRIES <? MAX_RETRIES) with false.
      now destruct (isTooLarge error).
  - intros hasKey errorMessage. split; [apply looksRateLimited_iff|].
    intros Hne Hlooks. unfold App.classify. fold errorMessage.
    apply String.eqb_neq in Hne. rewrite Hne, Hlooks.
    now destruct (Js.includes "limit: 0" errorMessage ||
                  Js.includes "limit:0" errorMessage).
  - repeat constructor.
Qed.

Lemma rate_limit_classification_witness :
  catchBlock 0 tooManyRequests = StepContinue 7000 /\
  catchBlock MAX_RETRIES tooManyRequests = StepThrow (Error MSG_RATE_LIMIT) /\
  catchBlock MAX_RETRIES quotaLowercase = StepThrow quotaLowercase /\
  App.classify quotaLowercase true = (App.MSG_BUSY, true).
Proof.
  pose proof (rate_limit_classification tooManyRequests) as (_ & Hrate & _).
  pose proof (rate_limit_classification quotaLowercase)
    as (_ & Hquota & Hcaller & _).
  destruct (Hrate eq_refl) as (Hwait & Hlast & _).
  destruct (Hquota eq_refl) as (_ & _ & Hraw).
  destruct (Hcaller true) as (_ & Hshown).
  split; [|split; [|split]].
  - apply (Hwait 0); reflexivity.
  - apply Hlast. reflexivity.
  - apply Hraw. reflexivity.
  - apply Hshown; [discriminate | reflexivity].
Defined.

Lemma catchBlock_key_error (attempt : N) (error : JsError) :
  isKeyError error = true -> catchBlock attempt error = StepThrow (Error KEY_ERROR).
Proof. intros K. unfold catchBlock. now rewrite K. Qed.

Lemma classify_key_error (hasKey : bool) :
  App.classify (Error KEY_ERROR) hasKey = (App.MSG_KEY, false).
Proof. reflexivity. Qed.

(** C3: when the endpoint throws an error whose message contains "Requested
    entity was not found" at attempt index [k], the catch block throws
    [KEY_ERROR] whatever the index, no attempt with a larger index is made,
    the call ends with [KEY_ERROR] if attempt [k] is made at all (with
    exactly one attempt when [k = 0]), and a caller that receives
    [KEY_ERROR] ends with its credential flag false. *)
Theorem key_error_aborts browser endpoint image featureType optionLabel
    (k : N) (error : JsError) :
  k <= MAX_RETRIES -> endpoint k = Raise error -> isKeyError error = true ->
  let run := generateFurnitureImage browser endpoint image featureType optionLabel in
  (forall attempt, catchBlock attempt error = StepThrow (Error KEY_ERROR)) /\
  (forall j request, In (EvCall j request) (snd run) -> j <= k) /\
  ((exists request, In (EvCall k request) (snd run)) ->
     fst run = Rejected (Error KEY_ERROR)) /\
  (k = 0 -> callCount (snd run) = 1%nat /\ fst run = Rejected (Error KEY_ERROR)) /\
  (forall st,
     App.originalImage st = Some image -> Js.truthy image = true ->
     fst run = Rejected (Error KEY_ERROR) ->
     let st' := fst (App.handleFeatureSelect browser endpoint st featureType
                       optionLabel) in
     App.hasApiKey st' = false /\ App.error st' = Some App.MSG_KEY).
Proof.
  intros Hk Hraise Hkey run.
  assert (attemptStep k (endpoint k) = StepThrow (Error KEY_ERROR)) as Sk
    by (unfold attemptStep; rewrite Hraise; now apply catchBlock_key_error).
  split; [intros attempt; now apply catchBlock_key_error|].
  assert (k = 0 \/ k = 1 \/ k = 2) as Cases by (unfold MAX_RETRIES in Hk; lia).
  split; [|split; [|split]].
  - intros j request. subst run.
    destruct (generateFurnitureImage_run browser endpoint image featureType
                optionLabel) as [rq ->].
    cbn [runAttempts].
    destruct Cases as [-> | [-> | ->]]; rewrite ?Sk; by_attempts; cbn [snd In];
      intros H; repeat (destruct H as [H|H]; try discriminate H);
      try (injection H as <- _); try lia; try contradiction;
      match goal with
      | A : attemptStep ?i _ = _, B : attemptStep ?i _ = _ |- _ =>
          rewrite A in B; discriminate B
      end.
  - intros [request Hin]. subst run.
    destruct (generateFurnitureImage_run browser endpoint image featureType
                optionLabel) as [rq E].
    rewrite E in *. clear E. revert Hin. cbn [runAttempts].
    destruct Cases as [-> | [-> | ->]]; rewrite ?Sk; by_attempts; cbn [snd fst In];
      intros H; try reflexivity;
      repeat (destruct H as [H|H]; try discriminate H); try contradiction;
      try (injection H as H _; discriminate H);
      match goal with
      | A : attemptStep ?i _ = _, B : attemptStep ?i _ = _ |- _ =>
          rewrite A in B; discriminate B
      end.
  - intros ->. subst run.
    destruct (generateFurnitureImage_run browser endpoint image featureType
                optionLabel) as [rq ->].
    cbn [runAttempts]. rewrite Sk. cbn. auto.
  - intros st Himg Htruthy Hrun st'. subst st'. unfold App.handleFeatureSelect.
    rewrite Himg, Htruthy. cbn [negb]. subst run.
    destruct (generateFurnitureImage browser endpoint image featureType
                optionLabel) as [outcome events].
    cbn [fst] in Hrun. subst outcome. rewrite classify_key_error. cbn. auto.
Qed.

Lemma key_error_aborts_witness :
  let run := generateFurnitureImage browserPlain (alwaysRaise entityNotFound)
               "photo" SCENE_PLACEMENT "Living Room" in
  callCount (snd run) = 1%nat /\ fst run = Rejected (Error KEY_ERROR) /\
  App.hasApiKey
    (fst (App.handleFeatureSelect browserPlain (alwaysRaise entityNotFound)
            (stateWithImage "photo") SCENE_PLACEMENT "Living Room")) = false.
Proof.
  pose proof (key_error_aborts browserPlain (alwaysRaise entityNotFound) "photo"
                SCENE_PLACEMENT "Living Room" 0 entityNotFound
                ltac:(discriminate) eq_refl eq_refl) as (_ & _ & _ & Hfirst & Hcaller).
  destruct (Hfirst eq_refl) as [Hcount Hrun].
  intros run. split; [exact Hcount | split; [exact Hrun|]].
  apply (Hcaller (stateWithImage "photo") eq_refl eq_refl Hrun).
Defined.

(** ** Generation client: reading the response *)

Lemma firstInlineData_none (ps : list Part) :
  firstInlineData ps = None <-> existsb hasInlineData ps = false.
Proof.
  induction ps as [|part more IH]; [easy|].
  cbn [firstInlineData existsb]. unfold hasInlineData at 1.
  destruct (inlineData part) as [blob|]; [|exact IH].
  destruct (data blob) as [d|]; [|exact IH].
  destruct (Js.truthy d); [easy | exact IH].
Qed.

Lemma firstInlineData_some (ps : list Part) (d : string) :
  firstInlineData ps = Some d <->
  exists before part after blob,
    ps = (before ++ part :: after)%list /\
    existsb hasInlineData before = false /\
    inlineData part = Some blob /\ data blob = Some d /\ Js.truthy d = true.
Proof.
  split.
  - induction ps as [|part more IH]; [discriminate|].
    cbn [firstInlineData]. intros H.
    assert (firstInlineData more = Some d ->
            hasInlineData part = false ->
            exists before p after blob,
              part :: more = (before ++ p :: after)%list /\
              existsb hasInlineData before = false /\
              inlineData p = Some blob /\ data blob = Some d /\
              Js.truthy d = true) as Later.
    { intros Hm Hp. destruct (IH Hm) as (b & p & a & bl & -> & Hb & R).
      exists (part :: b), p, a, bl. cbn [existsb app]. rewrite Hp, Hb. auto. }
    unfold hasInlineData in Later.
    destruct (inlineData part) as [blob|] eqn:Ei; [|auto].
    destruct (data blob) as [d'|] eqn:Ed; [|auto].
    destruct (Js.truthy d') eqn:Et; [|auto].
    injection H as <-. exists [], part, more, blob. auto.
  - intros (before & part & after & blob & -> & Hb & Hi & Hd & Ht).
    induction before as [|p b IH]; cbn [app firstInlineData].
    + now rewrite Hi, Hd, Ht.
    + cbn [existsb] in Hb. apply orb_false_iff in Hb as [Hp Hb].
      unfold hasInlineData in Hp.
      destruct (inlineData p) as [bl|]; [|auto].
      destruct (data bl) as [d'|]; [|auto].
      rewrite Hp. auto.
Qed.

Lemma inspectResponse_success (response : GenerateContentResponse) result :
  inspectResponse response = inl result <->
  exists ps d,
    firstCandidateParts response = Some ps /\
    firstInlineData ps = Some d /\ result = successResult d.
Proof.
  unfold inspectResponse, firstCandidateParts.
  destruct (candidates response) as [[|first rest]|].
  - split; [discriminate | now intros (? & ? & [=] & _)].
  - destruct (content first) as [c|].
    + destruct (parts c) as [ps|].
      * destruct (firstInlineData ps) as [d|] eqn:E.
        -- split.
           ++ intros [= <-]. now exists ps, d.
           ++ intros (ps' & d' & [= <-] & E' & ->). congruence.
        -- split; [discriminate|]. intros (ps' & d' & [= <-] & E' & _).
           congruence.
      * split; [discriminate | now intros (? & ? & [=] & _)].
    + split; [discriminate | now intros (? & ? & [=] & _)].
  - split; [discriminate | now intros (? & ? & [=] & _)].
Qed.

Lemma firstCandidateHasImage_iff (response : GenerateContentResponse) :
  firstCandidateHasImage response = true <->
  exists ps d, firstCandidateParts response = Some ps /\
               firstInlineData ps = Some d.
Proof.
  unfold firstCandidateHasImage, firstCandidateParts, candidateHasImage.
  destruct (candidates response) as [[|first rest]|];
    try (split; [discriminate | now intros (? & ? & [=] & _)]).
  destruct (content first) as [c|];
    try (split; [discriminate | now intros (? & ? & [=] & _)]).
  destruct (parts c) as [ps|];
    try (split; [discriminate | now intros (? & ? & [=] & _)]).
  destruct (firstInlineData ps) as [d|] eqn:E.
  - split; [now exists ps, d|]. intros _.
    destruct (existsb hasInlineData ps) eqn:X; [reflexivity|].
    apply firstInlineData_none in X. congruence.
  - apply firstInlineData_none in E as X. rewrite X.
    split; [discriminate|]. intros (ps' & d & [= <-] & E'). congruence.
Qed.

(** C4, as stated, fails: the attempt looks at the first candidate only, so
    a response whose image is in the second candidate does not succeed. *)
Lemma image_in_second_candidate_ignored :
  ~ (forall response,
       (exists result, inspectResponse response = inl result) <->
       someCandidateHasImage response = true).
Proof.
  intros claim. destruct (claim imageInSecondCandidate) as [_ back].
  destruct (back eq_refl) as [result H]. vm_compute in H. discriminate.
Qed.

(** C4 (amended): an attempt that gets a response succeeds exactly when the
    parts of the response's first candidate include a part with non-empty
    inline data; the data of the first such part, no earlier part having
    any, is the result image; and a response with no candidate, or whose
    first candidate has a parts list without such a part, throws the "no
    image returned" error. *)
Theorem attempt_success_condition (response : GenerateContentResponse) :
  ((exists result, inspectResponse response = inl result) <->
   firstCandidateHasImage response = true) /\
  (forall result,
     inspectResponse response = inl result ->
     exists before part after blob d,
       firstCandidateParts response = Some (before ++ part :: after)%list /\
       existsb hasInlineData before = false /\
       inlineData part = Some blob /\ data blob = Some d /\
       Js.truthy d = true /\
       imageUrl result = DATA_URI_PREFIX ++ d) /\
  (noCandidates response \/
   (exists ps, firstCandidateParts response = Some ps /\
               existsb hasInlineData ps = false) ->
   inspectResponse response = inr (Error MSG_NO_IMAGE)).
Proof.
  split; [|split].
  - rewrite firstCandidateHasImage_iff. split.
    + intros [result H]. apply inspectResponse_success in H
        as (ps & d & P & F & _). now exists ps, d.
    + intros (ps & d & P & F). exists (successResult d).
      apply inspectResponse_success. now exists ps, d.
  - intros result H. apply inspectResponse_success in H as (ps & d & P & F & ->).
    apply firstInlineData_some in F as (b & p & a & bl & -> & R).
    exists b, p, a, bl, d. intuition.
  - unfold noCandidates, inspectResponse, firstCandidateParts.
    intros [[E|E]|(ps & P & X)].
    + now rewrite E.
    + now rewrite E.
    + destruct (candidates response) as [[|first rest]|]; try discriminate.
      destruct (content first) as [c|]; try discriminate.
      rewrite P. apply firstInlineData_none in X. now rewrite X.
Qed.

Lemma attempt_success_condition_witness :
  inspectResponse {| candidates := Some [candidateOf [textPart "Sorry."]] |}
    = inr (Error MSG_NO_IMAGE) /\
  exists before part after blob d,
    firstCandidateParts (imageResponse "iVBORw0KGgo=")
      = Some (before ++ part :: after)%list /\
    existsb hasInlineData before = false /\
    inlineData part = Some blob /\ data blob = Some d /\
    Js.truthy d = true /\
    imageUrl (successResult "iVBORw0KGgo=") = DATA_URI_PREFIX ++ d.
Proof.
  split.
  - apply attempt_success_condition. right.
    exists [textPart "Sorry."]. split; reflexivity.
  - apply (proj1 (proj2 (attempt_success_condition (imageResponse "iVBORw0KGgo=")))).
    reflexivity.
Defined.

(** ** Generation client: what a call settles with *)



Lemma attemptStep_return (attempt : N) (outcome : EndpointOutcome) result :
  attemptStep attempt outcome = StepReturn result ->
  exists response ps d,
    outcome = Respond response /\
    firstCandidateParts response = Some ps /\
    firstInlineData ps = Some d /\ result = successResult d.
Proof.
  unfold attemptStep. destruct (tryBlock outcome) as [r|e] eqn:T.
  - intros [= ->]. destruct outcome as [response|err]; [|discriminate].
    cbn [tryBlock] in T.
    apply inspectResponse_success in T as (ps & d & P & F & E).
    now exists response, ps, d.
  - intros H. now elim (catchBlock_never_returns _ _ _ H).
Qed.

Lemma catchBlock_throw (attempt : N) (raised thrown : JsError) :
  catchBlock attempt raised = StepThrow thrown ->
  thrown = Error KEY_ERROR \/
  (MAX_RETRIES <= attempt /\
   (thrown = Error MSG_RATE_LIMIT \/ thrown = Error MSG_TOO_LARGE \/
    (thrown = raised /\ isKeyError raised = false /\
     isRateLimit raised = false /\ isTooLarge raised = false))).
Proof.
  unfold catchBlock.
  destruct (isKeyError raised); [intros [= <-]; now left|].
  destruct (N.ltb_spec attempt MAX_RETRIES) as [Hlt|Hge].
  - destruct (isRateLimit raised); discriminate.
  - destruct (isRateLimit raised);
      [intros [= <-]; right; split; [exact Hge | now left]|].
    destruct (isTooLarge raised); intros [= <-]; right; (split; [exact Hge|]).
    + right. now left.
    + right. right. auto.
Qed.

Lemma attemptStep_throw (attempt : N) (outcome : EndpointOutcome) thrown :
  attemptStep attempt outcome = StepThrow thrown ->
  exists raised,
    tryBlock outcome = inr raised /\ catchBlock attempt raised = StepThrow thrown.
Proof.
  unfold attemptStep. destruct (tryBlock outcome) as [r|e]; [discriminate|].
  intros H. now exists e.
Qed.



(** C6, as stated, fails: an endpoint that throws "fetch failed" at every
    attempt makes the client surface that very error, which is neither
    [KEY_ERROR] nor one of the client's localized messages. *)
Lemma raw_error_surfaced :
  ~ (forall browser endpoint image featureType optionLabel reason,
       fst (generateFurnitureImage browser endpoint image featureType
              optionLabel) = Rejected reason ->
       reason = Error KEY_ERROR \/ localized reason).
Proof.
  intros claim.
  destruct (claim browserPlain (alwaysRaise fetchFailed) "photo" MULTI_ANGLE
              "Front" fetchFailed eq_refl) as [H|(m & Hin & H)].
  - discriminate H.
  - cbn in Hin. repeat (destruct Hin as [<-|Hin]; [discriminate H|]).
    contradiction.
Qed.

(** C6 (amended): every error value the client surfaces is the sentinel
    [KEY_ERROR], the localized overloaded message, the localized too-large
    message, or the value thrown in the last attempt handed on unchanged
    (an error that carries none of the client's signals); the caller then
    shows what its own classification makes of that value's message. *)
Theorem surfaced_errors browser endpoint image featureType optionLabel reason :
  fst (generateFurnitureImage browser endpoint image featureType optionLabel)
    = Rejected reason ->
  (reason = Error KEY_ERROR \/
   reason = Error MSG_RATE_LIMIT \/
   reason = Error MSG_TOO_LARGE \/
   (tryBlock (endpoint MAX_RETRIES) = inr reason /\
    isKeyError reason = false /\ isRateLimit reason = false /\
    isTooLarge reason = false)) /\
  (forall st,
     App.originalImage st = Some image -> Js.truthy image = true ->
     let st' := fst (App.handleFeatureSelect browser endpoint st featureType
                       optionLabel) in
     App.error st' = Some (fst (App.classify reason (App.hasApiKey st))) /\
     App.hasApiKey st' = snd (App.classify reason (App.hasApiKey st))).
Proof.
  intros Hrun. split.
  - destruct (generateFurnitureImage_run browser endpoint image featureType
                optionLabel) as [request E].
    rewrite E in Hrun. clear E. revert Hrun. cbn [runAttempts].
    by_attempts; cbn [fst]; intros [= <-];
      match goal with
      | S : attemptStep ?i _ = StepThrow _ |- _ =>
          apply attemptStep_throw in S as (raised & T & C);
          apply catchBlock_throw in C
            as [C|(Hge & [C|[C|(C & K & R & L)]])];
          try (unfold MAX_RETRIES in Hge; lia); subst; auto 8
      end.
  - intros st Himg Htruthy st'. subst st'. unfold App.handleFeatureSelect.
    rewrite Himg, Htruthy. cbn [negb].
    destruct (generateFurnitureImage browser endpoint image featureType
                optionLabel) as [outcome events].
    cbn [fst] in Hrun. subst outcome.
    destruct (App.classify reason (App.hasApiKey st)). cbn. auto.
Qed.

Lemma surfaced_errors_witness :
  App.error
    (fst (App.handleFeatureSelect browserPlain (alwaysRaise quotaLowercase)
            (stateWithImage "photo") MULTI_ANGLE "Front"))
  = Some App.MSG_BUSY.
Proof.
  apply (proj2 (surfaced_errors browserPlain (alwaysRaise quotaLowercase) "photo"
                  MULTI_ANGLE "Front" quotaLowercase eq_refl)
               (stateWithImage "photo") eq_refl eq_refl).
Defined.

(** ** Worked runs *)

(** An endpoint that always answers with a rate-limit error: three calls,
    waits of 7 and 12 seconds, and the overloaded message at the end. *)
Example run_always_rate_limited :
  let run := generateFurnitureImage browserPlain (alwaysRaise tooManyRequests)
               "photo" MULTI_ANGLE "Front" in
  fst run = Rejected (Error MSG_RATE_LIMIT) /\
  callCount (snd run) = 3%nat /\ delays (snd run) = [7000; 12000].
Proof. repeat split. Qed.

(** A transient error on the first call, an image on the second: the result
    of the second call after one wait of one second. *)
Example run_transient_then_success :
  let run := generateFurnitureImage browserPlain
               (failOnceThen fetchFailed (imageResponse "iVBORw0KGgo="))
               "photo" SCENE_PLACEMENT "Living Room" in
  fst run = Resolved (successResult "iVBORw0KGgo=") /\
  callCount (snd run) = 2%nat /\ delays (snd run) = [1000].
Proof. repeat split. Qed.

(** Responses without an image at every attempt: the no-image error of the
    last attempt is what the caller gets. *)
Example run_never_an_image :
  let run := generateFurnitureImage browserPlain
               (alwaysRespond {| candidates := Some [] |})
               "photo" MULTI_ANGLE "Front" in
  fst run = Rejected (Error MSG_NO_IMAGE) /\ delays (snd run) = [1000; 1000].
Proof. repeat split. Qed.

(** The request carries the payload of the re-encoded data URL. *)
Example run_request_payload :
  exists events,
    snd (generateFurnitureImage browserPlain (alwaysRaise entityNotFound)
           "data:image/png;base64,AAAA" MULTI_ANGLE "Front")
    = EvCall 0 {| model := "gemini-2.5-flash-image";
                  requestText := prompt MULTI_ANGLE "Front";
                  requestMimeType := "image/jpeg";
                  requestData := "/9j/4AAQ" |} :: events.
Proof. now exists []. Qed.

(** Sizes computed for a landscape, a portrait and a small image. *)
Example scaledSize_samples :
  scaledSize 1024 2000 1000 = (1024, 512) /\
  scaledSize 1024 1000 3000 = (341, 1024) /\
  scaledSize 1024 800 600 = (800, 600) /\
  scaledSize 1024 10000 1 = (1024, 0).
Proof. repeat split. Qed.

(** * Further properties of the code *)

(** ** [cleanBase64] *)

Module CleanFacts.

Lemma includes_char (c a : ascii) (rest : string) :
  Js.includes (String c EmptyString) (String a rest) =
  Ascii.eqb a c || Js.includes (String c EmptyString) rest.
Proof.
  cbn [Js.includes String.prefix].
  destruct (ascii_dec c a) as [->|ne].
  - rewrite Ascii.eqb_refl. now destruct rest.
  - destruct (Ascii.eqb_spec a c) as [->|_]; [now elim ne | reflexivity].
Qed.

Lemma split_without (c : ascii) (s : string) :
  Js.includes (String c EmptyString) s = false -> Js.split c s = [s].
Proof.
  induction s as [|a rest IH]; [reflexivity|].
  rewrite includes_char. intros H. apply orb_false_iff in H as [Ha Hr].
  cbn [Js.split]. rewrite Ha, (IH Hr). reflexivity.
Qed.

Lemma split_at_first (c : ascii) (before after : string) :
  Js.includes (String c EmptyString) before = false ->
  Js.split c (before ++ String c after) = before :: Js.split c after.
Proof.
  induction before as [|a rest IH]; intros H.
  - cbn [append Js.split]. now rewrite Ascii.eqb_refl.
  - rewrite includes_char in H. apply orb_false_iff in H as [Ha Hr].
    cbn [append Js.split]. rewrite Ha, (IH Hr). reflexivity.
Qed.

Lemma split_pieces_without (c : ascii) (s : string) :
  Forall (fun piece => Js.includes (String c EmptyString) piece = false)
         (Js.split c s).
Proof.
  induction s as [|a rest IH]; cbn [Js.split].
  - now repeat constructor.
  - destruct (Ascii.eqb a c) eqn:E.
    + constructor; [reflexivity | exact IH].
    + destruct (Js.split c rest) as [|piece pieces].
      * repeat constructor. now rewrite includes_char, E.
      * inversion IH; subst. constructor; [|assumption].
        rewrite includes_char, E. assumption.
Qed.

End CleanFacts.

(** X1: from a data URL, header and payload separated by the first comma,
    [cleanBase64] returns the payload; anything after a second comma is
    dropped with it. *)
Theorem cleanBase64_payload (header payload rest : string) :
  commaFree header -> commaFree payload ->
  cleanBase64 (header ++ "," ++ payload) = payload /\
  cleanBase64 (header ++ "," ++ payload ++ "," ++ rest) = payload.
Proof.
  unfold commaFree, cleanBase64. intros Hh Hp. split.
  - rewrite JsFacts.includes_middle.
    change (header ++ "," ++ payload) with (header ++ String "," payload).
    rewrite (CleanFacts.split_at_first _ _ _ Hh), (CleanFacts.split_without _ _ Hp).
    reflexivity.
  - rewrite JsFacts.includes_middle.
    change (header ++ "," ++ payload ++ "," ++ rest)
      with (header ++ String "," (payload ++ String "," rest)).
    rewrite (CleanFacts.split_at_first _ _ _ Hh), (CleanFacts.split_at_first _ _ _ Hp).
    reflexivity.
Qed.

Lemma cleanBase64_payload_witness :
  cleanBase64 ("data:image/png;base64" ++ "," ++ "iVBORw0KGgo=") = "iVBORw0KGgo=" /\
  cleanBase64 ("data:image/png;base64" ++ "," ++ "iVBORw0KGgo=" ++ "," ++ "tail")
    = "iVBORw0KGgo=".
Proof.
  apply (cleanBase64_payload "data:image/png;base64" "iVBORw0KGgo=" "tail");
    reflexivity.
Defined.

Lemma cleanBase64_free (s : string) : commaFree (cleanBase64 s).
Proof.
  unfold commaFree, cleanBase64.
  destruct (Js.includes "," s) eqn:E; [|exact E].
  pose proof (CleanFacts.split_pieces_without "," s) as F.
  destruct (Js.split "," s) as [|p0 [|p1 more]]; try reflexivity.
  inversion F as [|? ? _ F1]; subst. now inversion F1.
Qed.

(** X2: what [cleanBase64] returns never contains a comma, a string without
    a comma is returned as it is, and applying it twice changes nothing
    more. *)
Theorem cleanBase64_comma_free (s : string) :
  commaFree (cleanBase64 s) /\
  (commaFree s -> cleanBase64 s = s) /\
  cleanBase64 (cleanBase64 s) = cleanBase64 s.
Proof.
  pose proof (cleanBase64_free s) as Hfree.
  assert (forall t, commaFree t -> cleanBase64 t = t) as Hid
    by (intros t Ht; unfold cleanBase64; now rewrite Ht).
  split; [exact Hfree | split; [apply Hid | now apply Hid]].
Qed.

Lemma cleanBase64_comma_free_witness : cleanBase64 "iVBORw0KGgo=" = "iVBORw0KGgo=".
Proof.
  apply (proj1 (proj2 (cleanBase64_comma_free "iVBORw0KGgo="))). reflexivity.
Defined.

(** ** [compressImage]: the size computation *)

(** X3: the computed size is a fixed point of the computation: an image of
    that size is not scaled again. *)
Theorem scaledSize_idempotent (cap w h : N) :
  scaledSize cap (fst (scaledSize cap w h)) (snd (scaledSize cap w h))
  = scaledSize cap w h.
Proof.
  destruct (scaledSize_preprocessed cap w h) as (Hmax & _).
  destruct (scaledSize cap w h) as [w' h'] eqn:E. cbn [fst snd] in *.
  destruct (scaledSize_preprocessed cap w' h') as (_ & Hkeep & _).
  destruct (Hkeep Hmax) as [Hw Hh].
  destruct (scaledSize cap w' h') as [w2 h2]. cbn [fst snd] in *. congruence.
Qed.

(** X4: scaling can produce an empty canvas: when the longer edge exceeds
    the cap, the shorter edge becomes 0 exactly when it is less than the
    longer edge divided by twice the cap; with the cap at least 1 the longer
    edge never does. *)
Theorem scaledSize_zero_edge (cap w h : N) :
  cap < N.max w h ->
  (h < w -> (snd (scaledSize cap w h) = 0 <-> 2 * (h * cap) < w)) /\
  (w <= h -> (fst (scaledSize cap w h) = 0 <-> 2 * (w * cap) < h)) /\
  (0 < cap -> 0 < N.max (fst (scaledSize cap w h)) (snd (scaledSize cap w h))).
Proof.
  intros Hcap.
  destruct (scaledSize_preprocessed cap w h) as (_ & _ & _ & Hscaled).
  destruct (Hscaled Hcap) as [Hland Hport]. unfold nearest in *.
  split; [|split].
  - intros Hhw. destruct (Hland Hhw) as (_ & lo & hi).
    set (r := snd (scaledSize cap w h)) in *. split; intros H; nia.
  - intros Hwh. destruct (Hport Hwh) as (_ & lo & hi).
    set (r := fst (scaledSize cap w h)) in *. split; intros H; nia.
  - intros Hpos. destruct (N.lt_ge_cases h w) as [Hhw|Hwh].
    + destruct (Hland Hhw) as (-> & _). lia.
    + destruct (Hport Hwh) as (-> & _). lia.
Qed.

Lemma scaledSize_zero_edge_witness :
  snd (scaledSize 1024 10000 1) = 0 <-> 2 * (1 * 1024) < 10000.
Proof.
  apply (scaledSize_zero_edge 1024 10000 1); reflexivity.
Defined.

(** ** [generateFurnitureImage]: requests, waits and outcomes *)

Lemma generateFurnitureImage_request browser endpoint image featureType
    optionLabel :
  exists compressed,
    compressImage browser image DEFAULT_MAX_WIDTH DEFAULT_QUALITY
      = Resolved compressed /\
    generateFurnitureImage browser endpoint image featureType optionLabel =
    match runAttempts endpoint (requestFor compressed featureType optionLabel)
            [0; 1; 2] with
    | (LoopReturned result, events) => (Resolved result, events)
    | (LoopThrew error, events) => (Rejected error, events)
    | (LoopExited, events) => (Rejected (Error MSG_GAVE_UP), events)
    end.
Proof.
  unfold generateFurnitureImage.
  destruct (compressImage browser image DEFAULT_MAX_WIDTH DEFAULT_QUALITY)
    as [compressed|reason] eqn:E.
  - exists compressed. split; reflexivity.
  - unfold compressImage in E.
    destruct (compressPath browser image DEFAULT_MAX_WIDTH); discriminate.
Qed.

(** The calls of a run carry the run's request and an index of the run. *)
Lemma runAttempts_calls endpoint request (attempts : list N) attempt sent :
  In (EvCall attempt sent) (snd (runAttempts endpoint request attempts)) ->
  sent = request /\ In attempt attempts.
Proof.
  induction attempts as [|a later IH]; cbn [runAttempts snd In]; [tauto|].
  destruct (attemptStep a (endpoint a)).
  - intros [[= <- <-]|[]]. auto.
  - intros [[= <- <-]|[]]. auto.
  - destruct (runAttempts endpoint request later) as [ending events].
    cbn [snd In] in *.
    intros [[= <- <-]|[H|H]]; [auto | discriminate H | tauto].
Qed.

(** X5: all calls of one run send one and the same request: the fixed model
    name, the prompt, the type image/jpeg and the comma-free payload of the
    preprocessed image, at attempt indices within the budget; when the
    image did not decode, the payload is that of the caller's string, still
    sent as image/jpeg. *)
Theorem every_call_same_request browser endpoint image featureType optionLabel :
  exists compressed,
    compressImage browser image DEFAULT_MAX_WIDTH DEFAULT_QUALITY
      = Resolved compressed /\
    (loadImage browser image = None -> compressed = image) /\
    commaFree (requestData (requestFor compressed featureType optionLabel)) /\
    forall attempt sent,
      In (EvCall attempt sent)
         (snd (generateFurnitureImage browser endpoint image featureType
                 optionLabel)) ->
      sent = requestFor compressed featureType optionLabel /\
      attempt <= MAX_RETRIES.
Proof.
  destruct (generateFurnitureImage_request browser endpoint image featureType
              optionLabel) as (compressed & Hc & ->).
  exists compressed. split; [exact Hc|]. split; [|split].
  - intros Hload. unfold compressImage, compressPath in Hc.
    rewrite Hload in Hc. now injection Hc.
  - apply cleanBase64_free.
  - intros attempt sent Hin.
    assert (In (EvCall attempt sent)
              (snd (runAttempts endpoint
                      (requestFor compressed featureType optionLabel) [0; 1; 2])))
      as Hin' by (destruct (runAttempts _ _ _) as [[?|?|] ?]; exact Hin).
    apply runAttempts_calls in Hin' as [-> Hidx]. split; [reflexivity|].
    cbn in Hidx. unfold MAX_RETRIES. lia.
Qed.

Lemma every_call_same_request_witness :
  exists compressed,
    compressImage browserNoDecode "data:image/png;base64,AAAA"
      DEFAULT_MAX_WIDTH DEFAULT_QUALITY = Resolved compressed /\
    compressed = "data:image/png;base64,AAAA".
Proof.
  destruct (every_call_same_request browserNoDecode (alwaysRaise fetchFailed)
              "data:image/png;base64,AAAA" MULTI_ANGLE "Front")
    as (compressed & Hc & Hsame & _).
  exists compressed. split; [exact Hc | apply Hsame; reflexivity].
Defined.

Lemma attemptStep_continue (attempt : N) (outcome : EndpointOutcome) (delay : N) :
  attemptStep attempt outcome = StepContinue delay ->
  attempt < MAX_RETRIES /\
  exists error,
    tryBlock outcome = inr error /\ isKeyError error = false /\
    delay = retryDelay attempt error.
Proof.
  unfold attemptStep. destruct (tryBlock outcome) as [r|e]; [discriminate|].
  unfold catchBlock, retryDelay.
  destruct (isKeyError e) eqn:K; [discriminate|].
  destruct (N.ltb_spec attempt MAX_RETRIES) as [Hlt|Hge].
  - intros H. split; [exact Hlt|]. exists e.
    destruct (isRateLimit e); injection H as <-; repeat split; exact K.
  - destruct (isRateLimit e); [discriminate|].
    destruct (isTooLarge e); discriminate.
Qed.

(** X6: the trace of every call has one of three shapes: the call of
    attempt 0; or call 0, one wait, call 1; or call 0, one wait, call 1, one
    wait, call 2.  So the endpoint is reached at least once, exactly one
    wait sits between two consecutive attempts and none follows the last
    attempt; each wait is at least one second, and the waits of one call
    add up to at most 19 seconds. *)
Theorem waiting_bound browser endpoint image featureType optionLabel :
  let events :=
    snd (generateFurnitureImage browser endpoint image featureType optionLabel) in
  (exists request, traceShape request events) /\
  (1 <= callCount events)%nat /\
  (length (delays events) + 1 = callCount events)%nat /\
  Forall (fun ms => 1000 <= ms) (delays events) /\
  totalDelay events <= 19000.
Proof.
  intros events. subst events.
  destruct (generateFurnitureImage_run browser endpoint image featureType
              optionLabel) as [request ->].
  cbn [runAttempts]. unfold totalDelay, traceShape.
  by_attempts; cbn [snd callCount delays length fold_right Nat.add];
    (split; [exists request; eauto 6|]);
    repeat match goal with
    | S : attemptStep _ _ = StepContinue _ |- _ =>
        apply attemptStep_continue in S as (_ & ? & _ & _ & ->)
    end;
    unfold retryDelay;
    repeat match goal with
    | |- context [isRateLimit ?e] => destruct (isRateLimit e)
    end;
    (split; [lia|]); (split; [reflexivity|]);
    (split; [repeat constructor; lia | lia]).
Qed.

Lemma attemptStep_return_try (attempt : N) (outcome : EndpointOutcome) result :
  attemptStep attempt outcome = StepReturn result <-> tryBlock outcome = inl result.
Proof.
  unfold attemptStep. destruct (tryBlock outcome) as [r|e].
  - split; congruence.
  - split; [|discriminate]. intros H. now elim (catchBlock_never_returns _ _ _ H).
Qed.

(** X7: a call resolves with a result exactly when some attempt within the
    budget returns that result and every earlier attempt failed with an
    error that lacks the entity-not-found signal. *)
Theorem resolves_iff browser endpoint image featureType optionLabel result :
  fst (generateFurnitureImage browser endpoint image featureType optionLabel)
    = Resolved result <->
  exists i,
    i <= MAX_RETRIES /\ tryBlock (endpoint i) = inl result /\
    forall j, j < i ->
      exists error, tryBlock (endpoint j) = inr error /\ isKeyError error = false.
Proof.
  destruct (generateFurnitureImage_run browser endpoint image featureType
              optionLabel) as [request ->].
  cbn [runAttempts]. split.
  - by_attempts; cbn [fst]; intros [= <-];
      repeat match goal with
      | S : attemptStep _ _ = StepContinue _ |- _ =>
          apply attemptStep_continue in S as (_ & ? & ? & ? & _)
      | S : attemptStep _ _ = StepReturn _ |- _ =>
          apply attemptStep_return_try in S
      end.
    + exists 0. repeat split; [discriminate | assumption | intros j Hj; lia].
    + exists 1. repeat split; [discriminate | assumption |].
      intros j Hj. assert (j = 0) as -> by lia. eauto.
    + exists 2. repeat split; [discriminate | assumption |].
      intros j Hj. assert (j = 0 \/ j = 1) as [-> | ->] by lia; eauto.
  - intros (i & Hi & Hret & Hbefore).
    assert (forall j, j < i ->
              exists d, attemptStep j (endpoint j) = StepContinue d) as Hcont.
    { intros j Hj. destruct (Hbefore j Hj) as (e & T & K).
      exists (retryDelay j e). rewrite (attemptStep_failure _ _ _ T).
      apply catchBlock_retry; [unfold MAX_RETRIES in *; lia | exact K]. }
    apply (proj2 (attemptStep_return_try i _ _)) in Hret.
    assert (i = 0 \/ i = 1 \/ i = 2) as [-> | [-> | ->]]
      by (unfold MAX_RETRIES in Hi; lia).
    + now rewrite Hret.
    + destruct (Hcont 0 ltac:(lia)) as [d0 ->]. now rewrite Hret.
    + destruct (Hcont 0 ltac:(lia)) as [d0 ->].
      destruct (Hcont 1 ltac:(lia)) as [d1 ->]. now rewrite Hret.
Qed.

Lemma resolves_iff_witness :
  fst (generateFurnitureImage browserPlain
         (failOnceThen fetchFailed (imageResponse "iVBORw0KGgo=")) "photo"
         MULTI_ANGLE "Front")
  = Resolved (successResult "iVBORw0KGgo=").
Proof.
  apply (proj2 (resolves_iff browserPlain
                  (failOnceThen fetchFailed (imageResponse "iVBORw0KGgo="))
                  "photo" MULTI_ANGLE "Front" (successResult "iVBORw0KGgo="))).
  exists 1. split; [discriminate|]. split; [reflexivity|].
  intros j Hj. assert (j = 0) as -> by lia.
  exists fetchFailed. split; reflexivity.
Defined.

(** X8: no error the client hands to its caller carries a signal the
    client itself looks for (entity not found, rate limit, too large); in
    particular the caller's own test for 429 never holds on it. *)
Theorem surfaced_error_without_signal browser endpoint image featureType
    optionLabel reason :
  fst (generateFurnitureImage browser endpoint image featureType optionLabel)
    = Rejected reason ->
  isKeyError reason = false /\ isRateLimit reason = false /\
  isTooLarge reason = false /\
  Js.includes "429" (App.messageOrDefault reason) = false.
Proof.
  intros Hrun.
  assert (reason = Error KEY_ERROR \/ reason = Error MSG_RATE_LIMIT \/
          reason = Error MSG_TOO_LARGE \/
          (isKeyError reason = false /\ isRateLimit reason = false /\
           isTooLarge reason = false)) as Cases.
  { destruct (generateFurnitureImage_run browser endpoint image featureType
                optionLabel) as [request E].
    rewrite E in Hrun. clear E. revert Hrun. cbn [runAttempts].
    by_attempts; cbn [fst]; intros [= <-];
      match goal with
      | S : attemptStep ?i _ = StepThrow _ |- _ =>
          apply attemptStep_throw in S as (raised & T & C);
          apply catchBlock_throw in C
            as [C|(Hge & [C|[C|(C & K & R & L)]])];
          subst; auto 10
      end. }
  destruct Cases as [-> | [-> | [-> | (K & R & L)]]];
    try (repeat split; reflexivity).
  repeat split; try assumption.
  unfold isRateLimit in R. apply orb_false_iff in R as [R _].
  apply orb_false_iff in R as [R _].
  unfold messageIncludes in R. unfold App.messageOrDefault.
  destruct (message reason) as [m|]; [|reflexivity].
  destruct (Js.truthy m); [exact R | reflexivity].
Qed.

Lemma surfaced_error_without_signal_witness :
  isRateLimit (Error MSG_RATE_LIMIT) = false /\
  Js.includes "429" (App.messageOrDefault (Error MSG_RATE_LIMIT)) = false.
Proof.
  destruct (surfaced_error_without_signal browserPlain
              (alwaysRaise tooManyRequests) "photo" MULTI_ANGLE "Front"
              (Error MSG_RATE_LIMIT) eq_refl) as (_ & R & _ & I).
  split; [exact R | exact I].
Defined.

(** ** [handleFeatureSelect]: what the user is left with *)

(** The run when every attempt fails without the entity-not-found signal. *)
Lemma exhausted_run browser endpoint image featureType optionLabel :
  (forall i, i <= MAX_RETRIES ->
     exists error, tryBlock (endpoint i) = inr error /\ isKeyError error = false) ->
  exists e0 e1 e2 request,
    tryBlock (endpoint 0) = inr e0 /\ tryBlock (endpoint 1) = inr e1 /\
    tryBlock (endpoint 2) = inr e2 /\ isKeyError e2 = false /\
    generateFurnitureImage browser endpoint image featureType optionLabel =
    (Rejected (if isRateLimit e2 then Error MSG_RATE_LIMIT
               else if isTooLarge e2 then Error MSG_TOO_LARGE else e2),
     [EvCall 0 request; EvWait (retryDelay 0 e0);
      EvCall 1 request; EvWait (retryDelay 1 e1); EvCall 2 request]).
Proof.
  intros Hfail.
  destruct (Hfail 0 ltac:(discriminate)) as (e0 & T0 & K0).
  destruct (Hfail 1 ltac:(discriminate)) as (e1 & T1 & K1).
  destruct (Hfail 2 ltac:(discriminate)) as (e2 & T2 & K2).
  destruct (generateFurnitureImage_run browser endpoint image featureType
              optionLabel) as [request ->].
  exists e0, e1, e2, request. repeat (split; [assumption|]).
  cbn [runAttempts].
  rewrite (attemptStep_failure _ _ _ T0), (catchBlock_retry 0 e0 eq_refl K0).
  rewrite (attemptStep_failure _ _ _ T1), (catchBlock_retry 1 e1 eq_refl K1).
  rewrite (attemptStep_failure _ _ _ T2). unfold catchBlock. rewrite K2.
  change (2 <? MAX_RETRIES) with false.
  destruct (isRateLimit e2); [reflexivity|]. now destruct (isTooLarge e2).
Qed.

Lemma handleFeatureSelect_rejected browser endpoint st featureType optionLabel
    image reason events :
  App.originalImage st = Some image -> Js.truthy image = true ->
  generateFurnitureImage browser endpoint image featureType optionLabel
    = (Rejected reason, events) ->
  App.handleFeatureSelect browser endpoint st featureType optionLabel =
  ({| App.step := App.SELECT_FEATURE;
      App.originalImage := App.originalImage st;
      App.resultImage := App.resultImage st;
      App.costInfo := App.costInfo st;
      App.loading := false;
      App.error := Some (fst (App.classify reason (App.hasApiKey st)));
      App.hasApiKey := snd (App.classify reason (App.hasApiKey st));
      App.checkingKey := App.checkingKey st |}, events).
Proof.
  intros Himg Htruthy Hrun. unfold App.handleFeatureSelect.
  rewrite Himg, Htruthy, Hrun. cbn [negb].
  now destruct (App.classify reason (App.hasApiKey st)).
Qed.

Lemma inspectResponse_no_image (response : GenerateContentResponse) :
  noCandidates response \/
  (exists ps, firstCandidateParts response = Some ps /\
              existsb hasInlineData ps = false) ->
  inspectResponse response = inr (Error MSG_NO_IMAGE).
Proof.
  unfold noCandidates, inspectResponse, firstCandidateParts.
  intros [[E|E]|(ps & P & X)]; try (now rewrite E).
  destruct (candidates response) as [[|first rest]|]; try discriminate.
  destruct (content first) as [c|]; try discriminate.
  rewrite P. apply firstInlineData_none in X. now rewrite X.
Qed.

(** X9: when every attempt fails with a rate-limit-class error (without
    the entity-not-found signal), the endpoint is called three times with
    waits of 7 and 12 seconds, and the user is back at the selection step
    with the client's overloaded message, the credential flag untouched,
    whatever else the provider's message says. *)
Theorem rate_limit_exhaustion_shown browser endpoint st featureType optionLabel
    image :
  App.originalImage st = Some image -> Js.truthy image = true ->
  (forall i, i <= MAX_RETRIES ->
     exists error, tryBlock (endpoint i) = inr error /\
                   isKeyError error = false /\ isRateLimit error = true) ->
  let after := App.handleFeatureSelect browser endpoint st featureType
                 optionLabel in
  App.error (fst after) = Some MSG_RATE_LIMIT /\
  App.step (fst after) = App.SELECT_FEATURE /\
  App.hasApiKey (fst after) = App.hasApiKey st /\
  App.loading (fst after) = false /\
  callCount (snd after) = 3%nat /\ delays (snd after) = [7000; 12000].
Proof.
  intros Himg Htruthy Hfail after. subst after.
  destruct (exhausted_run browser endpoint image featureType optionLabel)
    as (e0 & e1 & e2 & request & T0 & T1 & T2 & K2 & Hrun).
  { intros i Hi. destruct (Hfail i Hi) as (e & T & K & _). eauto. }
  destruct (Hfail 0 ltac:(discriminate)) as (e0' & T0' & _ & R0).
  destruct (Hfail 1 ltac:(discriminate)) as (e1' & T1' & _ & R1).
  destruct (Hfail 2 ltac:(discriminate)) as (e2' & T2' & _ & R2).
  assert (e0' = e0) as -> by congruence.
  assert (e1' = e1) as -> by congruence.
  assert (e2' = e2) as -> by congruence.
  rewrite R2 in Hrun.
  rewrite (handleFeatureSelect_rejected _ _ _ _ _ _ _ _ Himg Htruthy Hrun).
  cbn [fst snd App.error App.step App.hasApiKey App.loading callCount delays].
  unfold retryDelay. rewrite R0, R1. repeat split.
Qed.

Lemma rate_limit_exhaustion_shown_witness :
  App.error
    (fst (App.handleFeatureSelect browserPlain (alwaysRaise tooManyRequests)
            (stateWithImage "photo") MULTI_ANGLE "Front"))
  = Some MSG_RATE_LIMIT.
Proof.
  apply (rate_limit_exhaustion_shown browserPlain (alwaysRaise tooManyRequests)
           (stateWithImage "photo") MULTI_ANGLE "Front" "photo" eq_refl eq_refl).
  intros i _. exists tooManyRequests. repeat split.
Defined.

(** X10: a too-large error is retried like any other error: when every
    attempt fails with one (no rate-limit or entity-not-found signal), the
    endpoint is called three times with waits of one second, and the user
    is shown the client's image-too-large message. *)
Theorem too_large_exhaustion_shown browser endpoint st featureType optionLabel
    image :
  App.originalImage st = Some image -> Js.truthy image = true ->
  (forall i, i <= MAX_RETRIES ->
     exists error, tryBlock (endpoint i) = inr error /\
                   isKeyError error = false /\ isRateLimit error = false /\
                   isTooLarge error = true) ->
  let after := App.handleFeatureSelect browser endpoint st featureType
                 optionLabel in
  App.error (fst after) = Some MSG_TOO_LARGE /\
  App.step (fst after) = App.SELECT_FEATURE /\
  App.hasApiKey (fst after) = App.hasApiKey st /\
  callCount (snd after) = 3%nat /\ delays (snd after) = [1000; 1000].
Proof.
  intros Himg Htruthy Hfail after. subst after.
  destruct (exhausted_run browser endpoint image featureType optionLabel)
    as (e0 & e1 & e2 & request & T0 & T1 & T2 & K2 & Hrun).
  { intros i Hi. destruct (Hfail i Hi) as (e & T & K & _). eauto. }
  destruct (Hfail 0 ltac:(discriminate)) as (e0' & T0' & _ & R0 & _).
  destruct (Hfail 1 ltac:(discriminate)) as (e1' & T1' & _ & R1 & _).
  destruct (Hfail 2 ltac:(discriminate)) as (e2' & T2' & _ & R2 & L2).
  assert (e0' = e0) as -> by congruence.
  assert (e1' = e1) as -> by congruence.
  assert (e2' = e2) as -> by congruence.
  rewrite R2, L2 in Hrun.
  rewrite (handleFeatureSelect_rejected _ _ _ _ _ _ _ _ Himg Htruthy Hrun).
  cbn [fst snd App.error App.step App.hasApiKey callCount delays].
  unfold retryDelay. rewrite R0, R1. repeat split.
Qed.

Lemma too_large_exhaustion_shown_witness :
  App.error
    (fst (App.handleFeatureSelect browserPlain
            (alwaysRaise (Error "413 Request Entity Too Large"))
            (stateWithImage "photo") MULTI_ANGLE "Front"))
  = Some MSG_TOO_LARGE.
Proof.
  apply (too_large_exhaustion_shown browserPlain
           (alwaysRaise (Error "413 Request Entity Too Large"))
           (stateWithImage "photo") MULTI_ANGLE "Front" "photo" eq_refl eq_refl).
  intros i _. exists (Error "413 Request Entity Too Large"). repeat split.
Defined.

(** X11: a response without an image counts as a failed attempt like any
    other: when every attempt gets a response with no candidates, or whose
    first candidate has parts but none with inline data, the endpoint is
    called three times with waits of one second and the user is shown the
    no-image message. *)
Theorem no_image_exhaustion_shown browser endpoint st featureType optionLabel
    image :
  App.originalImage st = Some image -> Js.truthy image = true ->
  (forall i, i <= MAX_RETRIES ->
     exists response,
       endpoint i = Respond response /\
       (noCandidates response \/
        exists ps, firstCandidateParts response = Some ps /\
                   existsb hasInlineData ps = false)) ->
  let after := App.handleFeatureSelect browser endpoint st featureType
                 optionLabel in
  App.error (fst after) = Some MSG_NO_IMAGE /\
  App.step (fst after) = App.SELECT_FEATURE /\
  App.hasApiKey (fst after) = App.hasApiKey st /\
  callCount (snd after) = 3%nat /\ delays (snd after) = [1000; 1000].
Proof.
  intros Himg Htruthy Hfail after. subst after.
  assert (forall i, i <= MAX_RETRIES ->
            tryBlock (endpoint i) = inr (Error MSG_NO_IMAGE)) as Htry.
  { intros i Hi. destruct (Hfail i Hi) as (response & -> & Hno).
    cbn [tryBlock]. now apply inspectResponse_no_image. }
  destruct (exhausted_run browser endpoint image featureType optionLabel)
    as (e0 & e1 & e2 & request & T0 & T1 & T2 & K2 & Hrun).
  { intros i Hi. exists (Error MSG_NO_IMAGE). split; [now apply Htry|reflexivity]. }
  rewrite (Htry 0 ltac:(discriminate)) in T0. injection T0 as <-.
  rewrite (Htry 1 ltac:(discriminate)) in T1. injection T1 as <-.
  rewrite (Htry 2 ltac:(discriminate)) in T2. injection T2 as <-.
  rewrite (handleFeatureSelect_rejected _ _ _ _ _ _ _ _ Himg Htruthy Hrun).
  repeat split.
Qed.

Lemma no_image_exhaustion_shown_witness :
  App.error
    (fst (App.handleFeatureSelect browserPlain
            (alwaysRespond {| candidates := Some [candidateOf [textPart "Sorry."]] |})
            (stateWithImage "photo") MULTI_ANGLE "Front"))
  = Some MSG_NO_IMAGE.
Proof.
  apply (no_image_exhaustion_shown browserPlain
           (alwaysRespond {| candidates := Some [candidateOf [textPart "Sorry."]] |})
           (stateWithImage "photo") MULTI_ANGLE "Front" "photo" eq_refl eq_refl).
  intros i _. exists {| candidates := Some [candidateOf [textPart "Sorry."]] |}.
  split; [reflexivity|]. right. exists [textPart "Sorry."]. split; reflexivity.
Defined.


Lemma classify_shown_truthy (reason : JsError) (hasKey : bool) :
  Js.truthy (fst (App.classify reason hasKey)) = true.
Proof.
  unfold App.classify.
  assert (Js.truthy (App.messageOrDefault reason) = true) as T.
  { unfold App.messageOrDefault. destruct (message reason) as [m|]; [|reflexivity].
    destruct (Js.truthy m) eqn:E; [exact E | reflexivity]. }
  destruct (String.eqb _ KEY_ERROR); [reflexivity|].
  destruct (App.looksRateLimited _); [|exact T].
  destruct (_ || _); reflexivity.
Qed.

Lemma classify_flag (reason : JsError) (hasKey : bool) :
  snd (App.classify reason hasKey) = true -> hasKey = true.
Proof.
  unfold App.classify.
  destruct (String.eqb _ KEY_ERROR); [discriminate|].
  destruct (App.looksRateLimited _); [|auto].
  destruct (_ || _); auto.
Qed.

Lemma resolved_form browser endpoint image featureType optionLabel result :
  fst (generateFurnitureImage browser endpoint image featureType optionLabel)
    = Resolved result ->
  exists d, Js.truthy d = true /\ result = successResult d.
Proof.
  destruct (generateFurnitureImage_run browser endpoint image featureType
              optionLabel) as [request ->].
  cbn [runAttempts].
  by_attempts; cbn [fst]; intros [= <-];
    match goal with
    | S : attemptStep _ _ = StepReturn _ |- _ =>
        apply attemptStep_return in S as (response & ps & d & _ & _ & F & ->);
        apply firstInlineData_some in F as (_ & _ & _ & _ & _ & _ & _ & _ & T);
        now exists d
    end.
Qed.

(** X12: [handleFeatureSelect] keeps the uploaded image and never turns the
    credential flag on; without an image it calls nothing and changes
    nothing; with one it calls the endpoint, ends with [loading] off, and
    either shows a result (non-empty image URL, the fixed cost, no error,
    flag untouched) or returns to the selection step with a non-empty
    message, the previous result and cost left in place. *)
Theorem handleFeatureSelect_outcome browser endpoint st featureType optionLabel :
  let after := App.handleFeatureSelect browser endpoint st featureType
                 optionLabel in
  App.originalImage (fst after) = App.originalImage st /\
  (App.hasApiKey (fst after) = true -> App.hasApiKey st = true) /\
  (App.whenTruthy (App.originalImage st) = None -> after = (st, [])) /\
  (forall image,
     App.whenTruthy (App.originalImage st) = Some image ->
     App.loading (fst after) = false /\ snd after <> [] /\
     ((exists url,
         App.step (fst after) = App.RESULT /\ App.error (fst after) = None /\
         App.resultImage (fst after) = Some url /\ Js.truthy url = true /\
         App.costInfo (fst after) = Some FIXED_COST /\
         App.hasApiKey (fst after) = App.hasApiKey st) \/
      (exists shown,
         App.step (fst after) = App.SELECT_FEATURE /\
         App.error (fst after) = Some shown /\ Js.truthy shown = true /\
         App.resultImage (fst after) = App.resultImage st /\
         App.costInfo (fst after) = App.costInfo st))).
Proof.
  intros after. subst after. unfold App.handleFeatureSelect, App.whenTruthy.
  destruct (App.originalImage st) as [image|] eqn:Himg;
    [|cbn [fst snd]; rewrite Himg; repeat split; auto; discriminate].
  destruct (Js.truthy image) eqn:Htruthy; cbn [negb fst snd];
    [|rewrite Himg; repeat split; auto; discriminate].
  pose proof (resolved_form browser endpoint image featureType optionLabel)
    as Hform.
  destruct (generateFurnitureImage_request browser endpoint image featureType
              optionLabel) as (compressed & _ & Hrun).
  assert (snd (generateFurnitureImage browser endpoint image featureType
                 optionLabel) <> []) as Hcalls.
  { rewrite Hrun.
    destruct (runAttempts_first endpoint
                (requestFor compressed featureType optionLabel) 0 [1; 2])
      as [events E].
    destruct (runAttempts _ _ _) as [[?|?|] ?]; cbn [snd] in *; rewrite E;
      discriminate. }
  clear Hrun.
  destruct (generateFurnitureImage browser endpoint image featureType
              optionLabel) as [[result|reason] events]; cbn [fst snd] in *.
  - destruct (Hform result eq_refl) as (d & T & ->).
    split; [reflexivity|]. split; [auto|]. split; [discriminate|].
    intros image' [= <-]. split; [reflexivity|]. split; [exact Hcalls|].
    left. exists (imageUrl (successResult d)). repeat split.
  - pose proof (classify_shown_truthy reason (App.hasApiKey st)) as T.
    pose proof (classify_flag reason (App.hasApiKey st)) as F.
    destruct (App.classify reason (App.hasApiKey st)) as [shown hasKey].
    cbn [fst snd] in *.
    split; [reflexivity|]. split; [exact F|]. split; [discriminate|].
    intros image' [= <-]. split; [reflexivity|]. split; [exact Hcalls|].
    right. exists shown. repeat split. exact T.
Qed.

Lemma handleFeatureSelect_outcome_witness :
  let shown := App.handleFeatureSelect browserPlain
                 (alwaysRespond (imageResponse "iVBORw0KGgo="))
                 (stateWithImage "photo") MULTI_ANGLE "Front" in
  let failed := App.handleFeatureSelect browserPlain (alwaysRaise fetchFailed)
                  (stateWithImage "photo") MULTI_ANGLE "Front" in
  (App.loading (fst shown) = false /\ snd shown <> [] /\
   ((exists url,
       App.step (fst shown) = App.RESULT /\ App.error (fst shown) = None /\
       App.resultImage (fst shown) = Some url /\ Js.truthy url = true /\
       App.costInfo (fst shown) = Some FIXED_COST /\
       App.hasApiKey (fst shown) = true) \/
    (exists message,
       App.step (fst shown) = App.SELECT_FEATURE /\
       App.error (fst shown) = Some message /\ Js.truthy message = true /\
       App.resultImage (fst shown) = None /\
       App.costInfo (fst shown) = None))) /\
  (App.loading (fst failed) = false /\ snd failed <> [] /\
   ((exists url,
       App.step (fst failed) = App.RESULT /\ App.error (fst failed) = None /\
       App.resultImage (fst failed) = Some url /\ Js.truthy url = true /\
       App.costInfo (fst failed) = Some FIXED_COST /\
       App.hasApiKey (fst failed) = true) \/
    (exists message,
       App.step (fst failed) = App.SELECT_FEATURE /\
       App.error (fst failed) = Some message /\ Js.truthy message = true /\
       App.resultImage (fst failed) = None /\
       App.costInfo (fst failed) = None))) /\
  App.step (fst shown) = App.RESULT /\
  App.step (fst failed) = App.SELECT_FEATURE.
Proof.
  intros shown failed. split; [|split; [|split]].
  - apply (proj2 (proj2 (proj2
      (handleFeatureSelect_outcome browserPlain
         (alwaysRespond (imageResponse "iVBORw0KGgo="))
         (stateWithImage "photo") MULTI_ANGLE "Front"))) "photo").
    reflexivity.
  - apply (proj2 (proj2 (proj2
      (handleFeatureSelect_outcome browserPlain (alwaysRaise fetchFailed)
         (stateWithImage "photo") MULTI_ANGLE "Front"))) "photo").
    reflexivity.
  - reflexivity.
  - reflexivity.
Defined.

(** ** The screens *)

Lemma key_error_run browser endpoint image featureType optionLabel error :
  endpoint 0 = Raise error -> isKeyError error = true ->
  exists request,
    generateFurnitureImage browser endpoint image featureType optionLabel
    = (Rejected (Error KEY_ERROR), [EvCall 0 request]).
Proof.
  intros Hraise Hkey.
  destruct (generateFurnitureImage_run browser endpoint image featureType
              optionLabel) as [request ->].
  exists request. cbn [runAttempts]. unfold attemptStep at 1.
  rewrite Hraise. cbn [tryBlock]. now rewrite (catchBlock_key_error 0 _ Hkey).
Qed.

(** X13: from a screen with the feature selector, an entity-not-found error
    on the first attempt puts up the billing gate (the authentication
    message is stored, not shown); once the host's key dialog has closed
    normally, the selector is back with the same image and the
    authentication message in the banner, with no new check of the key. *)
Theorem key_error_then_reconnect browser endpoint st featureType optionLabel
    image error host studio :
  App.originalImage st = Some image -> Js.truthy image = true ->
  App.checkingKey st = false ->
  endpoint 0 = Raise error -> isKeyError error = true ->
  App.aistudio host = Some studio ->
  App.openSelectKey studio = Some (Resolved tt) ->
  let gated := fst (App.handleFeatureSelect browser endpoint st featureType
                      optionLabel) in
  App.render gated = App.BillingGate /\
  App.error gated = Some App.MSG_KEY /\
  App.handleConnectBilling host gated = (App.withKey gated true, None) /\
  App.render (fst (App.handleConnectBilling host gated))
    = App.MainScreen (Some App.MSG_KEY) (Some (App.FeatureSelectorView image)).
Proof.
  intros Himg Htruthy Hcheck Hraise Hkey Hhost Hdialog gated. subst gated.
  destruct (key_error_run browser endpoint image featureType optionLabel error
              Hraise Hkey) as [request Hrun].
  rewrite (handleFeatureSelect_rejected _ _ _ _ _ _ _ _ Himg Htruthy Hrun).
  cbn [fst]. unfold App.handleConnectBilling. rewrite Hhost, Hdialog.
  unfold App.render, App.renderBody, App.whenTruthy.
  cbn. rewrite Hcheck, Himg, Htruthy. repeat split.
Qed.

Lemma key_error_then_reconnect_witness :
  App.render
    (fst (App.handleConnectBilling hostWithDialog
            (fst (App.handleFeatureSelect browserPlain
                    (alwaysRaise entityNotFound) (stateWithImage "photo")
                    MULTI_ANGLE "Front"))))
  = App.MainScreen (Some App.MSG_KEY) (Some (App.FeatureSelectorView "photo")).
Proof.
  apply (key_error_then_reconnect browserPlain (alwaysRaise entityNotFound)
           (stateWithImage "photo") MULTI_ANGLE "Front" "photo" entityNotFound
           hostWithDialog
           {| App.hasSelectedApiKey := Some (Resolved false);
              App.openSelectKey := Some (Resolved tt) |});
    reflexivity.
Defined.









(** X15: the check of the key at mount always ends the checking screen,
    whatever the host does; it leaves the upload screen or the billing
    gate; a host whose check rejects gives the gate even when the
    environment carries a key; and from the gate, a key dialog that closes
    normally leads to the upload screen. *)
Theorem startup_screens (host : App.Host) :
  let started := App.checkApiKey host App.initialState in
  (App.render started = App.MainScreen None (Some App.UploadSectionView) \/
   App.render started = App.BillingGate) /\
  (forall studio reason,
     App.aistudio host = Some studio ->
     App.hasSelectedApiKey studio = Some (Rejected reason) ->
     App.render started = App.BillingGate) /\
  (forall host' studio,
     App.aistudio host' = Some studio ->
     App.openSelectKey studio = Some (Resolved tt) ->
     App.render (fst (App.handleConnectBilling host' started))
     = App.MainScreen None (Some App.UploadSectionView)).
Proof.
  intros started. subst started. unfold App.checkApiKey. split; [|split].
  - destruct (App.aistudio host) as [studio|].
    + destruct (App.hasSelectedApiKey studio) as [[[|]|reason]|]; cbn; auto.
      destruct (App.envKeyPresent host); cbn; auto.
    + destruct (App.envKeyPresent host); cbn; auto.
  - intros studio reason -> ->. reflexivity.
  - intros host' studio Hhost Hdialog. unfold App.handleConnectBilling.
    rewrite Hhost, Hdialog.
    destruct (App.aistudio host) as [s|].
    + destruct (App.hasSelectedApiKey s) as [[hasKey|reason]|]; reflexivity.
    + reflexivity.
Qed.

Lemma startup_screens_witness :
  App.render
    (fst (App.handleConnectBilling hostWithDialog
            (App.checkApiKey hostWithDialog App.initialState)))
  = App.MainScreen None (Some App.UploadSectionView).
Proof.
  apply (proj2 (proj2 (startup_screens hostWithDialog)) hostWithDialog
           {| App.hasSelectedApiKey := Some (Resolved false);
              App.openSelectKey := Some (Resolved tt) |});
    reflexivity.
Defined.
